(** * The auto-responder cog ([cogs/autoresponder.py]) as a shallow embedding

    The cog keeps trigger definitions in an SQLite table, a pattern-keyed
    dictionary [self.cache] in memory, and a usage table [logs].  The
    embedding follows the Python text method by method:

    - Python [str] values are [string]s (their UTF-8 bytes: equality and
      containment of code-point sequences coincide with those of the
      encodings);
    - SQLite integers and Discord snowflakes are [Z];
    - [self.cache] is a [gmap string Trigger];
    - the [triggers] table is the list of its rows in rowid order, which is
      the order of an unindexed [SELECT];
    - methods that touch the database or the cache are computations in a
      state-and-exception monad over [World].

    What lives outside the repository is abstracted.  The development is
    parametric in a [Runtime] (the [re] module and [str.lower]), of which
    [py_ascii] is an executable instance covering an ASCII fragment, used
    to run the model on examples; the random source and the clock of a
    pass are an [Oracle]. *)

From Stdlib Require Import ZArith Ascii String.
From stdpp Require Import gmap strings list fin_maps sorting.

Local Open Scope string_scope.
Local Open Scope Z_scope.
Local Open Scope list_scope.

(** ** Exceptions and outcomes *)

Inductive exn : Type :=
  | ReError      (* re.error *)
  | TypeError    (* subscripting None *)
  | IndexError.  (* random.choice on an empty sequence *)

Inductive outcome (A : Type) : Type :=
  | Ok (a : A)
  | Raise (e : exn).
Arguments Ok {A} a.
Arguments Raise {A} e.

(** ** Strings *)

Module Str.

(** [s.startswith(p)] *)
Fixpoint startswith (p s : string) : bool :=
  match p, s with
  | EmptyString, _ => true
  | String a p', String b s' => Ascii.eqb a b && startswith p' s'
  | String _ _, EmptyString => false
  end.

(** [p in s] on Python strings. *)
Fixpoint contains (p s : string) : bool :=
  startswith p s ||
  match s with
  | EmptyString => false
  | String _ s' => contains p s'
  end.

Definition lower_ascii (a : ascii) : ascii :=
  let n := nat_of_ascii a in
  if ((65 <=? n) && (n <=? 90))%nat then ascii_of_nat (n + 32) else a.

(** [str.lower] restricted to ASCII letters; other bytes are kept. *)
Fixpoint lower (s : string) : string :=
  match s with
  | EmptyString => EmptyString
  | String a s' => String (lower_ascii a) (lower s')
  end.

End Str.

(** ** The runtime the cog runs on *)

(** The parts of Python's library that [match_trigger] calls.  [re_compile]
    answers [None] exactly when [re.compile] raises [re.error];
    [re_find r s] tells whether the compiled pattern has a match anywhere
    in [s] (the truth value of the object [search] returns). *)
Record Runtime : Type := {
  regex : Type;
  str_lower : string → string;
  re_compile : string → option regex;
  re_find : regex → string → bool;
}.

(** ** Data model *)

(** One element of the JSON list in the [responses] column. *)
Record Response : Type := {
  r_type : string;
  r_content : string;
}.

(** The dictionary built by [get_trigger] and stored in the cache. *)
Record Trigger : Type := {
  t_id : Z;
  t_pattern : string;
  t_match_type : string;
  t_case_sensitive : bool;
  t_responses : list Response;
  t_cooldown : Z;
  t_channels : list Z;
  t_roles : list Z;
  t_blacklist_users : list Z;
  t_whitelist_users : list Z;
  t_creator_id : Z;
  t_created_at : Z;
}.

(** ** The matcher *)

Section Matcher.
Context (py : Runtime).

(** [re.search(pattern, string)]: compile, then search. *)
Definition re_search (pattern s : string) : outcome bool :=
  match re_compile py pattern with
  | None => Raise ReError
  | Some r => Ok (re_find py r s)
  end.

(** The pattern and the text the comparison is made on (lines 233-235). *)
Definition folded (case_sensitive : bool) (s : string) : string :=
  if negb case_sensitive then str_lower py s else s.

Definition match_trigger (trigger : Trigger) (message_content : string)
  : outcome bool :=
  let pattern := t_pattern trigger in
  let match_type := t_match_type trigger in
  let case_sensitive := t_case_sensitive trigger in
  let message_content := folded case_sensitive message_content in
  let pattern := folded case_sensitive pattern in
  if String.eqb match_type "exact" then
    Ok (String.eqb message_content pattern)
  else if String.eqb match_type "partial" then
    Ok (Str.contains pattern message_content)
  else if String.eqb match_type "regex" then
    match re_search pattern message_content with
    | Ok b => Ok b
    | Raise ReError => Ok false
    | Raise e => Raise e
    end
  else Ok false.

End Matcher.

(** ** An executable runtime for an ASCII fragment

    [MiniRe] implements the part of Python's pattern syntax made of
    literal characters, the dot, the star and backslash escapes, with the
    errors [re.compile] reports on it.  Patterns that use anything else
    (groups, classes, anchors, counted repetition) are [Unsupported]: the
    instance rejects them and no statement below depends on how. *)

Module MiniRe.

Inductive re : Type :=
  | Chr (a : ascii)
  | Any               (* the dot: any character but a newline *)
  | Star (r : re)
  | Seq (r1 r2 : re)
  | Eps.

Inductive parsed : Type :=
  | Parsed (r : re)
  | NothingToRepeat
  | MultipleRepeat
  | BadEscape
  | Unsupported.

Definition is_alnum (a : ascii) : bool :=
  let n := nat_of_ascii a in
  ((48 <=? n) && (n <=? 57) || (65 <=? n) && (n <=? 90)
   || (97 <=? n) && (n <=? 122))%nat.

(** The character an escape [\c] stands for, for the control escapes. *)
Definition control_escape (c : ascii) : option ascii :=
  if Ascii.eqb c "a" then Some (ascii_of_nat 7)
  else if Ascii.eqb c "f" then Some (ascii_of_nat 12)
  else if Ascii.eqb c "n" then Some (ascii_of_nat 10)
  else if Ascii.eqb c "r" then Some (ascii_of_nat 13)
  else if Ascii.eqb c "t" then Some (ascii_of_nat 9)
  else if Ascii.eqb c "v" then Some (ascii_of_nat 11)
  else None.

(** Escapes that are valid in Python but outside the fragment. *)
Definition class_escape (c : ascii) : bool :=
  existsb (Ascii.eqb c)
    ["A"; "b"; "B"; "d"; "D"; "s"; "S"; "w"; "W"; "Z"; "N"; "x"; "u"; "U";
     "0"; "1"; "2"; "3"; "4"; "5"; "6"; "7"; "8"; "9"]%char.

Definition metachar (c : ascii) : bool :=
  existsb (Ascii.eqb c)
    ["("; ")"; "["; "]"; "{"; "}"; "?"; "+"; "|"; "^"; "$"]%char.

Definition seq_of (atoms : list re) : re :=
  fold_left (fun acc r => Seq r acc) atoms Eps.

(** [atoms] holds the atoms read so far, last one first. *)
Fixpoint parse_from (atoms : list re) (s : string) : parsed :=
  match s with
  | EmptyString => Parsed (seq_of atoms)
  | String c s' =>
      if Ascii.eqb c "*" then
        match atoms with
        | [] => NothingToRepeat
        | Star _ :: _ => MultipleRepeat
        | r :: rest => parse_from (Star r :: rest) s'
        end
      else if Ascii.eqb c "." then parse_from (Any :: atoms) s'
      else if Ascii.eqb c "\" then
        match s' with
        | EmptyString => BadEscape
        | String e s'' =>
            match control_escape e with
            | Some a => parse_from (Chr a :: atoms) s''
            | None =>
                if class_escape e then Unsupported
                else if is_alnum e then BadEscape
                else parse_from (Chr e :: atoms) s''
            end
        end
      else if metachar c then Unsupported
      else parse_from (Chr c :: atoms) s'
  end.

Definition parse (s : string) : parsed := parse_from [] s.

Definition compile (s : string) : option re :=
  match parse s with
  | Parsed r => Some r
  | _ => None
  end.

Fixpoint nullable (r : re) : bool :=
  match r with
  | Chr _ | Any => false
  | Star _ | Eps => true
  | Seq r1 r2 => nullable r1 && nullable r2
  end.

(** Brzozowski derivative. *)
Fixpoint deriv (c : ascii) (r : re) : list re :=
  match r with
  | Chr a => if Ascii.eqb a c then [Eps] else []
  | Any => if Ascii.eqb c (ascii_of_nat 10) then [] else [Eps]
  | Eps => []
  | Star r1 => (fun d => Seq d (Star r1)) <$> deriv c r1
  | Seq r1 r2 =>
      ((fun d => Seq d r2) <$> deriv c r1)
      ++ (if nullable r1 then deriv c r2 else [])
  end.

(** Some prefix of [s] is matched by one of [rs]. *)
Fixpoint match_prefix (rs : list re) (s : string) : bool :=
  existsb nullable rs ||
  match s with
  | EmptyString => false
  | String c s' => match_prefix (rs ≫= deriv c) s'
  end.

(** A match starts at some position of [s]. *)
Fixpoint find (r : re) (s : string) : bool :=
  match_prefix [r] s ||
  match s with
  | EmptyString => false
  | String _ s' => find r s'
  end.

End MiniRe.

Definition py_ascii : Runtime := {|
  regex := MiniRe.re;
  str_lower := Str.lower;
  re_compile := MiniRe.compile;
  re_find := MiniRe.find;
|}.

(** ** The database, the cache and the outside world *)

(** A row of the [triggers] table.  The four JSON columns that
    [get_trigger] guards with [if row[k]] are [None] when the column is
    NULL or the empty text, and [Some l] when it holds the JSON text of
    [l]; [json.dumps] followed by [json.loads] is the identity on lists of
    integers and of response objects. *)
Record Row : Type := {
  row_id : Z;
  row_pattern : string;
  row_match_type : string;
  row_case_sensitive : bool;
  row_responses : list Response;
  row_cooldown : Z;
  row_channels : option (list Z);
  row_roles : option (list Z);
  row_blacklist_users : option (list Z);
  row_whitelist_users : option (list Z);
  row_creator_id : Z;
  row_created_at : Z;
}.

(** A row of the [logs] table (its own rowid is its position). *)
Record LogRow : Type := {
  log_trigger_id : Z;
  log_user_id : Z;
  log_channel_id : Z;
  log_timestamp : Z;
}.

(** The dictionary [add_trigger] hands to [add_trigger_to_db]; the scope
    keys are read with [.get(key, [])] and may be missing. *)
Record TriggerData : Type := {
  td_pattern : string;
  td_match_type : string;
  td_case_sensitive : bool;
  td_responses : list Response;
  td_cooldown : Z;
  td_channels : option (list Z);
  td_roles : option (list Z);
  td_blacklist_users : option (list Z);
  td_whitelist_users : option (list Z);
}.

(** The SQL statements the cog executes. *)
Inductive sql : Type :=
  | SelectTriggerByPattern (pattern : string)
  | SelectAllTriggers
  | SelectPatternAndType
  | InsertTrigger (row : Row)
  | DeleteTriggerByPattern (pattern : string)
  | InsertLog (l : LogRow).

(** What [create_response] returns: the text, an embed carrying the
    content as description, or [None] for any other response type. *)
Inductive created : Type :=
  | RespStr (s : string)
  | RespEmbed (description : string)
  | RespNone.

(** A call of [message.channel.send]. *)
Record Sent : Type := {
  sent_channel : Z;
  sent_what : created;
}.

(** What a slash command answers through [interaction.response]. *)
Inductive reply : Type :=
  | ReplyText (s : string)
  | ReplyEmbed (title : string) (fields : list (string * string)).

(** The fields of [discord.Message] the listener reads. *)
Record Message : Type := {
  m_content : string;
  m_author_id : Z;
  m_author_bot : bool;
  m_author_roles : list Z;
  m_channel_id : Z;
}.

(** The random source and the clock during one pass of [on_message],
    indexed by the position of the row being processed. *)
Record Oracle : Type := {
  draw : nat → nat;
  utcnow : nat → Z;
}.

Record World : Type := {
  triggers : list Row;
  logs : list LogRow;
  cache : gmap string Trigger;
  statements : list sql;
  sent : list Sent;
}.

Definition empty_world : World :=
  {| triggers := []; logs := []; cache := ∅; statements := []; sent := [] |}.

(** ** The state-and-exception monad *)

Definition M (A : Type) : Type := World → outcome A * World.

Definition ret {A} (a : A) : M A := fun w => (Ok a, w).

Definition raise {A} (e : exn) : M A := fun w => (Raise e, w).

Definition bind {A B} (c : M A) (k : A → M B) : M B :=
  fun w =>
    match c w with
    | (Ok a, w') => k a w'
    | (Raise e, w') => (Raise e, w')
    end.

Definition lift {A} (o : outcome A) : M A := fun w => (o, w).

Definition gets {A} (f : World → A) : M A := fun w => (Ok (f w), w).

Definition modify (f : World → World) : M unit := fun w => (Ok tt, f w).

Declare Scope cog_scope.
Delimit Scope cog_scope with cog.
Notation "'let!' x ':=' c 'in' k" := (bind c (fun x => k))
  (at level 10, x pattern, c at level 100, k at level 200) : cog_scope.
Notation "'do!' c 'in' k" := (bind c (fun _ => k))
  (at level 10, c at level 100, k at level 200) : cog_scope.
Local Open Scope cog_scope.

(** ** Python and SQLite primitives *)

(** Truth value of a list. *)
Definition truthy {A} (l : list A) : bool :=
  match l with
  | [] => false
  | _ :: _ => true
  end.

(** [x in l] for a list of integers. *)
Definition py_in (x : Z) (l : list Z) : bool := existsb (Z.eqb x) l.

(** [json.loads(col) if col else []] *)
Definition loads_or_empty (col : option (list Z)) : list Z :=
  match col with
  | Some l => l
  | None => []
  end.

(** [random.choice(seq)] with the drawn number [n]. *)
Definition random_choice {A} (n : nat) (seq : list A) : outcome A :=
  match seq !! (n mod length seq)%nat with
  | Some x => Ok x
  | None => Raise IndexError
  end.

(** The rowid SQLite gives to a row inserted without one: one more than
    the largest in use, 1 in an empty table. *)
Definition next_rowid (rows : list Row) : Z :=
  1 + foldr Z.max 0 (row_id <$> rows).

Definition execute (q : sql) : M unit :=
  modify (fun w =>
    {| triggers := triggers w; logs := logs w; cache := cache w;
       statements := statements w ++ [q]; sent := sent w |}).

Definition set_triggers (rows : list Row) : M unit :=
  modify (fun w =>
    {| triggers := rows; logs := logs w; cache := cache w;
       statements := statements w; sent := sent w |}).

Definition set_cache (c : gmap string Trigger) : M unit :=
  modify (fun w =>
    {| triggers := triggers w; logs := logs w; cache := c;
       statements := statements w; sent := sent w |}).

(** [SELECT * FROM triggers WHERE pattern = ?] followed by [fetchone]:
    the first row of the scan that carries the pattern. *)
Definition fetchone (rows : list Row) (pattern : string) : option Row :=
  find (fun r => String.eqb (row_pattern r) pattern) rows.

Definition select_trigger_by_pattern (pattern : string) : M (option Row) :=
  do! execute (SelectTriggerByPattern pattern) in
  gets (fun w => fetchone (triggers w) pattern).

Definition select_all_triggers : M (list Row) :=
  do! execute SelectAllTriggers in gets triggers.

Definition insert_trigger (mk : Z → Row) : M unit :=
  let! rows := gets triggers in
  let row := mk (next_rowid rows) in
  do! execute (InsertTrigger row) in
  set_triggers (rows ++ [row]).

Definition delete_trigger_by_pattern (pattern : string) : M unit :=
  do! execute (DeleteTriggerByPattern pattern) in
  let! rows := gets triggers in
  set_triggers (filter (fun r => row_pattern r ≠ pattern) rows).

Definition insert_log (l : LogRow) : M unit :=
  do! execute (InsertLog l) in
  modify (fun w =>
    {| triggers := triggers w; logs := logs w ++ [l]; cache := cache w;
       statements := statements w; sent := sent w |}).

Definition channel_send (channel : Z) (what : created) : M unit :=
  modify (fun w =>
    {| triggers := triggers w; logs := logs w; cache := cache w;
       statements := statements w;
       sent := sent w ++ [{| sent_channel := channel; sent_what := what |}] |}).

(** ** The cog's methods *)

(** The dictionary [get_trigger] builds from a row (lines 60-75). *)
Definition trigger_of_row (row : Row) : Trigger :=
  {| t_id := row_id row;
     t_pattern := row_pattern row;
     t_match_type := row_match_type row;
     t_case_sensitive := row_case_sensitive row;
     t_responses := row_responses row;
     t_cooldown := row_cooldown row;
     t_channels := loads_or_empty (row_channels row);
     t_roles := loads_or_empty (row_roles row);
     t_blacklist_users := loads_or_empty (row_blacklist_users row);
     t_whitelist_users := loads_or_empty (row_whitelist_users row);
     t_creator_id := row_creator_id row;
     t_created_at := row_created_at row |}.

Definition get_trigger (pattern : string) : M (option Trigger) :=
  let! c := gets cache in
  match c !! pattern with
  | Some t => ret (Some t)
  | None =>
      let! row := select_trigger_by_pattern pattern in
      match row with
      | Some row =>
          let trigger := trigger_of_row row in
          do! set_cache (<[pattern := trigger]> c) in
          ret (Some trigger)
      | None => ret None
      end
  end.

(** The row [add_trigger_to_db] inserts; [now] is [datetime.utcnow()]. *)
Definition row_of_data (trigger_data : TriggerData) (now : Z) (rowid : Z)
  : Row :=
  {| row_id := rowid;
     row_pattern := td_pattern trigger_data;
     row_match_type := td_match_type trigger_data;
     row_case_sensitive := td_case_sensitive trigger_data;
     row_responses := td_responses trigger_data;
     row_cooldown := td_cooldown trigger_data;
     row_channels := Some (default [] (td_channels trigger_data));
     row_roles := Some (default [] (td_roles trigger_data));
     row_blacklist_users := Some (default [] (td_blacklist_users trigger_data));
     row_whitelist_users := Some (default [] (td_whitelist_users trigger_data));
     row_creator_id := 1;
     row_created_at := now |}.

Definition add_trigger_to_db (trigger_data : TriggerData) (now : Z) : M unit :=
  insert_trigger (row_of_data trigger_data now).

Definition add_trigger (pattern response match_type : string) (now : Z)
  : M reply :=
  let trigger_data :=
    {| td_pattern := pattern;
       td_match_type := match_type;
       td_case_sensitive := true;
       td_responses := [{| r_type := "text"; r_content := response |}];
       td_cooldown := 0;
       td_channels := None; td_roles := None;
       td_blacklist_users := None; td_whitelist_users := None |} in
  do! add_trigger_to_db trigger_data now in
  ret (ReplyText ("Trigger '" +:+ pattern +:+ "' added successfully!")).

Definition delete_trigger (pattern : string) : M reply :=
  do! delete_trigger_by_pattern pattern in
  let! c := gets cache in
  do! (if bool_decide (is_Some (c !! pattern))
       then set_cache (delete pattern c) else ret tt) in
  ret (ReplyText ("Trigger '" +:+ pattern +:+ "' deleted successfully!")).

Definition list_triggers : M reply :=
  do! execute SelectPatternAndType in
  let! rows := gets triggers in
  if negb (truthy rows) then ret (ReplyText "No triggers found.")
  else
    ret (ReplyEmbed "Trigger List"
           ((fun r => (row_pattern r, "Match type: " +:+ row_match_type r))
              <$> rows)).

Definition create_response (response_data : Response) : created :=
  if String.eqb (r_type response_data) "text" then
    RespStr (r_content response_data)
  else if String.eqb (r_type response_data) "embed" then
    RespEmbed (r_content response_data)
  else RespNone.

Section Dispatcher.
Context (py : Runtime).

(** [trigger[...]] on the value [get_trigger] returned. *)
Definition subscript (trigger : option Trigger) : M Trigger :=
  match trigger with
  | Some t => ret t
  | None => raise TypeError
  end.

(** The body of the loop of [on_message] for the row at position [i]
    (lines 183-225); [ret tt] in a branch is Python's [continue]. *)
Definition on_message_row (o : Oracle) (message : Message)
    (i : nat) (row : Row) : M unit :=
  let! trigger := get_trigger (row_pattern row) in
  let! trigger := subscript trigger in
  let! matched := lift (match_trigger py trigger (m_content message)) in
  if negb matched then ret tt
  else if truthy (t_channels trigger)
          && negb (py_in (m_channel_id message) (t_channels trigger))
  then ret tt
  else if truthy (t_roles trigger)
          && negb (existsb (fun role => py_in role (t_roles trigger))
                     (m_author_roles message))
  then ret tt
  else if py_in (m_author_id message) (t_blacklist_users trigger)
  then ret tt
  else if truthy (t_whitelist_users trigger)
          && negb (py_in (m_author_id message) (t_whitelist_users trigger))
  then ret tt
  else
    let! response_data := lift (random_choice (draw o i) (t_responses trigger)) in
    let response := create_response response_data in
    do! insert_log {| log_trigger_id := t_id trigger;
                      log_user_id := m_author_id message;
                      log_channel_id := m_channel_id message;
                      log_timestamp := utcnow o i |} in
    channel_send (m_channel_id message) response.

(** [async for row in cursor], from position [i] on. *)
Fixpoint on_message_loop (o : Oracle) (message : Message)
    (i : nat) (rows : list Row) : M unit :=
  match rows with
  | [] => ret tt
  | row :: rest =>
      do! on_message_row o message i row in
      on_message_loop o message (S i) rest
  end.

Definition on_message (o : Oracle) (message : Message) : M unit :=
  if m_author_bot message then ret tt
  else
    let! rows := select_all_triggers in
    on_message_loop o message 0 rows.

End Dispatcher.

(** ** Vocabulary of the specification *)

(** [p] occurs in [s] as a contiguous substring. *)
Definition substring_of (p s : string) : Prop :=
  ∃ pre post, s = pre +:+ p +:+ post.

(** The four scope checks of the filter pipeline, each on its own. *)
Definition channel_check (t : Trigger) (m : Message) : bool :=
  implb (truthy (t_channels t)) (py_in (m_channel_id m) (t_channels t)).

Definition role_check (t : Trigger) (m : Message) : bool :=
  implb (truthy (t_roles t))
        (existsb (fun role => py_in role (t_roles t)) (m_author_roles m)).

Definition blacklist_check (t : Trigger) (m : Message) : bool :=
  negb (py_in (m_author_id m) (t_blacklist_users t)).

Definition whitelist_check (t : Trigger) (m : Message) : bool :=
  implb (truthy (t_whitelist_users t))
        (py_in (m_author_id m) (t_whitelist_users t)).

Definition allowed (t : Trigger) (m : Message) : bool :=
  channel_check t m && role_check t m && blacklist_check t m
  && whitelist_check t m.

(** The trigger a pattern resolves to in a table without a cache: the
    first row carrying the pattern. *)
Definition resolve (rows : list Row) (pattern : string) : option Trigger :=
  trigger_of_row <$> fetchone rows pattern.

(** One firing: the position of the row that caused it, the trigger that
    fired and the response chosen. *)
Record Firing : Type := {
  f_index : nat;
  f_trigger : Trigger;
  f_response : Response;
}.

Definition log_entry (o : Oracle) (m : Message) (f : Firing) : LogRow :=
  {| log_trigger_id := t_id (f_trigger f);
     log_user_id := m_author_id m;
     log_channel_id := m_channel_id m;
     log_timestamp := utcnow o (f_index f) |}.

Definition emission (m : Message) (f : Firing) : Sent :=
  {| sent_channel := m_channel_id m;
     sent_what := create_response (f_response f) |}.

Section Specification.
Context (py : Runtime).

(** The matcher as a predicate: an exception would count as no match. *)
Definition matches (t : Trigger) (text : string) : bool :=
  match match_trigger py t text with
  | Ok b => b
  | Raise _ => false
  end.

(** The firing of trigger [t] for the row at position [i], if any. *)
Definition firing_of (o : Oracle) (m : Message) (i : nat) (t : Trigger)
  : list Firing :=
  if matches t (m_content m) && allowed t m then
    match random_choice (draw o i) (t_responses t) with
    | Ok resp => [{| f_index := i; f_trigger := t; f_response := resp |}]
    | Raise _ => []
    end
  else [].

(** The firings of one pass over [rows] (from position [i] on) when
    every row is resolved through its pattern in the table [all]. *)
Fixpoint firings (all : list Row) (o : Oracle) (m : Message)
    (i : nat) (rows : list Row) : list Firing :=
  match rows with
  | [] => []
  | row :: rest =>
      match resolve all (row_pattern row) with
      | Some t => firing_of o m i t
      | None => []
      end ++ firings all o m (S i) rest
  end.


(** ** Well-formed and reachable worlds *)

Record wf_world (w : World) : Prop := {
  wf_ids : NoDup (row_id <$> triggers w);
  wf_cache : ∀ p t, cache w !! p = Some t → resolve (triggers w) p = Some t;
  wf_responses : ∀ r, r ∈ triggers w → row_responses r ≠ [];
}.

(** What the outside can ask of the cog. *)
Inductive command : Type :=
  | AddTrigger (pattern response match_type : string) (now : Z)
  | DeleteTrigger (pattern : string)
  | ListTriggers
  | OnMessage (o : Oracle) (m : Message).

Definition run (c : command) : M unit :=
  match c with
  | AddTrigger pattern response match_type now =>
      do! add_trigger pattern response match_type now in ret tt
  | DeleteTrigger pattern => do! delete_trigger pattern in ret tt
  | ListTriggers => do! list_triggers in ret tt
  | OnMessage o m => on_message py o m
  end.

(** The world after a sequence of commands; an exception ends the
    command that raised it and leaves what it had already written. *)
Fixpoint run_all (cs : list command) (w : World) : World :=
  match cs with
  | [] => w
  | c :: cs' => run_all cs' (run c w).2
  end.

Definition reachable (w : World) : Prop :=
  ∃ cs, w = run_all cs empty_world.

End Specification.

(** ** Sample data *)

Definition sample_oracle : Oracle :=
  {| draw := fun i => i; utcnow := fun i => 1700000000 + Z.of_nat i |}.

(** A message of user 43, who holds role 10, in channel 5. *)
Definition user_message (text : string) : Message :=
  {| m_content := text; m_author_id := 43; m_author_bot := false;
     m_author_roles := [10]; m_channel_id := 5 |}.

(** A message written by a bot account, such as the cog's own. *)
Definition bot_message (text : string) : Message :=
  {| m_content := text; m_author_id := 1; m_author_bot := true;
     m_author_roles := []; m_channel_id := 5 |}.

Definition sample_trigger (pattern match_type : string) (case_sensitive : bool)
  : Trigger :=
  {| t_id := 1; t_pattern := pattern; t_match_type := match_type;
     t_case_sensitive := case_sensitive;
     t_responses := [{| r_type := "text"; r_content := "hi!" |}];
     t_cooldown := 0; t_channels := []; t_roles := [];
     t_blacklist_users := []; t_whitelist_users := [];
     t_creator_id := 1; t_created_at := 0 |}.

(** Two triggers with different patterns that both match "hello". *)
Definition distinct_commands : list command :=
  [AddTrigger "hello" "hi!" "exact" 1; AddTrigger "h.*o" "ho!" "regex" 2].

Definition distinct_world : World := run_all py_ascii distinct_commands empty_world.

(** Two triggers that share the pattern "hi". *)
Definition shared_commands : list command :=
  [AddTrigger "hi" "A" "exact" 1; AddTrigger "hi" "B" "partial" 2].

Definition shared_world : World := run_all py_ascii shared_commands empty_world.

(** The shared-pattern table with a third trigger, after a pass that has
    filled the cache. *)
Definition cached_commands : list command :=
  [AddTrigger "hi" "A" "exact" 1; AddTrigger "hi" "B" "partial" 2;
   AddTrigger "hello" "hi!" "partial" 3;
   OnMessage sample_oracle (user_message "hi")].

Definition cached_world : World := run_all py_ascii cached_commands empty_world.

(** A row that lists user 42 both in its blacklist and in its whitelist. *)
Definition guarded_row : Row :=
  {| row_id := 1; row_pattern := "hello"; row_match_type := "exact";
     row_case_sensitive := true;
     row_responses := [{| r_type := "text"; r_content := "hi!" |}];
     row_cooldown := 0; row_channels := Some [5]; row_roles := None;
     row_blacklist_users := Some [42]; row_whitelist_users := Some [42; 43];
     row_creator_id := 1; row_created_at := 0 |}.

Definition guarded_world : World :=
  {| triggers := [guarded_row]; logs := []; cache := ∅; statements := [];
     sent := [] |}.

Definition listed_message : Message :=
  {| m_content := "hello"; m_author_id := 42; m_author_bot := false;
     m_author_roles := []; m_channel_id := 5 |}.

(** ** Vocabulary for the commands taken together *)

(** The row [add_trigger] hands to the database, under the id [rowid]. *)
Definition added_row (pattern response match_type : string) (now rowid : Z)
  : Row :=
  {| row_id := rowid;
     row_pattern := pattern;
     row_match_type := match_type;
     row_case_sensitive := true;
     row_responses := [{| r_type := "text"; r_content := response |}];
     row_cooldown := 0;
     row_channels := Some []; row_roles := Some [];
     row_blacklist_users := Some []; row_whitelist_users := Some [];
     row_creator_id := 1;
     row_created_at := now |}.

(** A row as the [add_trigger] command writes them. *)
Definition command_made (r : Row) : Prop :=
  ∃ pattern response match_type now rowid,
    r = added_row pattern response match_type now rowid.

(** The same trigger under another match type. *)
Definition with_match_type (match_type : string) (t : Trigger) : Trigger :=
  {| t_id := t_id t;
     t_pattern := t_pattern t;
     t_match_type := match_type;
     t_case_sensitive := t_case_sensitive t;
     t_responses := t_responses t;
     t_cooldown := t_cooldown t;
     t_channels := t_channels t;
     t_roles := t_roles t;
     t_blacklist_users := t_blacklist_users t;
     t_whitelist_users := t_whitelist_users t;
     t_creator_id := t_creator_id t;
     t_created_at := t_created_at t |}.

(** The fields of the embed a command answered with, if it did. *)
Definition reply_fields (r : outcome reply) : list (string * string) :=
  match r with
  | Ok (ReplyEmbed _ fields) => fields
  | _ => []
  end.


(** A table whose first row, stored without any response, matches
    "hello", followed by a usable trigger for the same text. *)
Definition silent_data : TriggerData :=
  {| td_pattern := "hel"; td_match_type := "partial";
     td_case_sensitive := true; td_responses := []; td_cooldown := 0;
     td_channels := None; td_roles := None;
     td_blacklist_users := None; td_whitelist_users := None |}.

Definition silent_world : World :=
  (add_trigger "hello" "hi!" "exact" 2
     (add_trigger_to_db silent_data 1 empty_world).2).2.

(** * Properties *)

(** ** Strings *)

Lemma append_empty (s : string) : "" +:+ s = s.
Proof. reflexivity. Qed.

Lemma append_String (a : ascii) (s1 s2 : string) :
  String a s1 +:+ s2 = String a (s1 +:+ s2).
Proof. reflexivity. Qed.

Lemma startswith_spec (p s : string) :
  Str.startswith p s = true ↔ ∃ post, s = p +:+ post.
Proof.
  revert s. induction p as [|a p IH]; intros s; simpl.
  - split; [intros _; by exists s | done].
  - destruct s as [|b s].
    + split; [done | intros [post H]; by rewrite append_String in H].
    + rewrite andb_true_iff, Ascii.eqb_eq, IH. split.
      * intros [-> [post ->]]. by exists post.
      * intros [post H]. rewrite append_String in H.
        injection H as -> ->. eauto.
Qed.

Lemma contains_spec (p s : string) :
  Str.contains p s = true ↔ substring_of p s.
Proof.
  unfold substring_of. induction s as [|b s IH].
  - simpl. rewrite orb_false_r, startswith_spec. split.
    + intros [post H]. by exists "", post.
    + intros [[|c pre] [post H]].
      * rewrite append_empty in H. eauto.
      * by rewrite append_String in H.
  - cbn [Str.contains]. rewrite orb_true_iff, IH, startswith_spec. split.
    + intros [[post H] | [pre [post H]]].
      * by exists "", post.
      * exists (String b pre), post. rewrite append_String. by f_equal.
    + intros [[|c pre] [post H]].
      * left. rewrite append_empty in H. eauto.
      * right. rewrite append_String in H. injection H as -> ->. eauto.
Qed.

(** ** The matcher *)

Section MatcherFacts.
Context (py : Runtime).

Lemma match_trigger_exact (t : Trigger) (text : string) :
  t_match_type t = "exact" →
  match_trigger py t text
  = Ok (String.eqb (folded py (t_case_sensitive t) text)
                   (folded py (t_case_sensitive t) (t_pattern t))).
Proof. intros H. unfold match_trigger. by rewrite H. Qed.

Lemma match_trigger_partial (t : Trigger) (text : string) :
  t_match_type t = "partial" →
  match_trigger py t text
  = Ok (Str.contains (folded py (t_case_sensitive t) (t_pattern t))
                     (folded py (t_case_sensitive t) text)).
Proof. intros H. unfold match_trigger. by rewrite H. Qed.


(** [match_trigger] returns a boolean on every input: the only
    exception its body can meet is caught. *)
Lemma match_trigger_total (t : Trigger) (text : string) :
  match_trigger py t text = Ok (matches py t text).
Proof.
  unfold matches, match_trigger, re_search.
  destruct (String.eqb _ "exact"); [done |].
  destruct (String.eqb _ "partial"); [done |].
  destruct (String.eqb _ "regex"); [| done].
  by destruct (re_compile py _).
Qed.

End MatcherFacts.

(** C3. Exact, case-sensitive triggers: [match_trigger] returns a boolean,
    and it is true exactly when the message text is the pattern itself,
    character for character. *)
Theorem C3_exact_case_sensitive (py : Runtime) (t : Trigger) (text : string) :
  t_match_type t = "exact" →
  t_case_sensitive t = true →
  ∃ b, match_trigger py t text = Ok b ∧ (b = true ↔ text = t_pattern t).
Proof.
  intros Hty Hcs. rewrite (match_trigger_exact py t text Hty), Hcs. simpl.
  eexists. split; [done |]. apply String.eqb_eq.
Qed.

(** C8. Partial triggers: [match_trigger] returns a boolean, and it is true
    exactly when the pattern occurs as a contiguous substring of the text,
    both taken as they are when the trigger is case sensitive and both
    lower-cased first when it is not. *)
Theorem C8_partial_substring (py : Runtime) (t : Trigger) (text : string) :
  t_match_type t = "partial" →
  ∃ b, match_trigger py t text = Ok b ∧
    (b = true ↔
     if t_case_sensitive t then substring_of (t_pattern t) text
     else substring_of (str_lower py (t_pattern t)) (str_lower py text)).
Proof.
  intros Hty. rewrite (match_trigger_partial py t text Hty).
  eexists. split; [done |]. rewrite contains_spec.
  by destruct (t_case_sensitive t).
Qed.


(** ** Looking a pattern up in the table *)

Lemma fetchone_Some (rows : list Row) (p : string) (r : Row) :
  fetchone rows p = Some r → r ∈ rows ∧ row_pattern r = p.
Proof.
  unfold fetchone. induction rows as [|x rows IH]; simpl; [done |].
  destruct (String.eqb (row_pattern x) p) eqn:E.
  - intros [= ->]. split; [left | by apply String.eqb_eq].
  - intros H. destruct (IH H). split; [by right | done].
Qed.

Lemma fetchone_None (rows : list Row) (p : string) :
  fetchone rows p = None ↔ ∀ r, r ∈ rows → row_pattern r ≠ p.
Proof.
  unfold fetchone. induction rows as [|x rows IH]; simpl.
  - split; [intros _ r Hr; inversion Hr | done].
  - destruct (String.eqb (row_pattern x) p) eqn:E.
    + apply String.eqb_eq in E. split; [done |].
      intros H. destruct (H x); [left | done].
    + apply String.eqb_neq in E. rewrite IH. split.
      * intros H r Hr. inversion Hr; subst; eauto.
      * intros H r Hr. apply H. by right.
Qed.

Lemma fetchone_elem (rows : list Row) (r : Row) :
  r ∈ rows → ∃ r0, fetchone rows (row_pattern r) = Some r0.
Proof.
  intros Hr. destruct (fetchone rows (row_pattern r)) as [r0|] eqn:E; [eauto |].
  rewrite fetchone_None in E. by destruct (E r Hr).
Qed.

Lemma fetchone_app (rows more : list Row) (p : string) (r : Row) :
  fetchone rows p = Some r → fetchone (rows ++ more) p = Some r.
Proof.
  unfold fetchone. induction rows as [|x rows IH]; simpl; [done |].
  by destruct (String.eqb (row_pattern x) p).
Qed.

Lemma fetchone_filter_ne (rows : list Row) (p q : string) :
  q ≠ p →
  fetchone (filter (fun r => row_pattern r ≠ p) rows) q = fetchone rows q.
Proof.
  intros Hne. unfold fetchone. induction rows as [|x rows IH]; [done |].
  rewrite filter_cons. destruct (decide (row_pattern x ≠ p)) as [Hx|Hx]; simpl.
  - by rewrite IH.
  - rewrite IH. destruct (String.eqb (row_pattern x) q) eqn:E; [| done].
    apply String.eqb_eq in E. destruct Hx. congruence.
Qed.

Lemma fetchone_filter_eq (rows : list Row) (p : string) :
  fetchone (filter (fun r => row_pattern r ≠ p) rows) p = None.
Proof.
  apply fetchone_None. intros r Hr. by apply list_elem_of_filter in Hr as [? _].
Qed.


Lemma next_rowid_fresh (rows : list Row) (r : Row) :
  r ∈ rows → row_id r < next_rowid rows.
Proof.
  unfold next_rowid. induction rows as [|x rows IH]; intros Hr; [inversion Hr |].
  rewrite fmap_cons. simpl. inversion Hr; subst; [lia |].
  specialize (IH H1). lia.
Qed.

(** ** The cache *)

(** C7. [get_trigger] is read-through. When the dictionary holds the
    pattern, the cached trigger is returned and the world is untouched: no
    statement is executed. Otherwise exactly one [SELECT ... WHERE pattern]
    is executed; the first row found is returned as a trigger after being
    stored under the pattern, and when there is none [None] is returned and
    the dictionary stays as it was. The tables are never written. *)
Theorem C7_get_trigger_read_through (p : string) (w : World) :
  let (result, w') := get_trigger p w in
  triggers w' = triggers w ∧ logs w' = logs w ∧ sent w' = sent w ∧
  match cache w !! p with
  | Some t => result = Ok (Some t) ∧ w' = w
  | None =>
      statements w' = statements w ++ [SelectTriggerByPattern p] ∧
      match fetchone (triggers w) p with
      | Some row =>
          result = Ok (Some (trigger_of_row row)) ∧
          cache w' = <[p := trigger_of_row row]> (cache w)
      | None => result = Ok None ∧ cache w' = cache w
      end
  end.
Proof.
  unfold get_trigger, bind, gets. simpl.
  destruct (cache w !! p) as [t|]; simpl; [done |].
  by destruct (fetchone (triggers w) p).
Qed.

(** ** Well-formed worlds *)

Lemma wf_world_same (w w' : World) :
  triggers w' = triggers w → cache w' = cache w →
  wf_world w → wf_world w'.
Proof.
  intros Ht Hc [H1 H2 H3]. split; rewrite ?Ht, ?Hc; done.
Qed.

Lemma wf_empty_world : wf_world empty_world.
Proof.
  split; simpl.
  - constructor.
  - intros p t H. by rewrite lookup_empty in H.
  - intros r Hr. inversion Hr.
Qed.

Lemma resolve_responses (w : World) (p : string) (t : Trigger) :
  wf_world w → resolve (triggers w) p = Some t → t_responses t ≠ [].
Proof.
  intros Hwf. unfold resolve.
  destruct (fetchone (triggers w) p) as [r|] eqn:E; [| done].
  intros [= <-]. apply fetchone_Some in E as [Hr _].
  by apply (wf_responses w Hwf).
Qed.

Lemma random_choice_nonempty {A} (n : nat) (l : list A) :
  l ≠ [] → ∃ x, random_choice n l = Ok x ∧ x ∈ l.
Proof.
  intros Hl. unfold random_choice.
  assert (n mod length l < length l)%nat as Hlt.
  { apply Nat.mod_upper_bound. by destruct l. }
  apply lookup_lt_is_Some in Hlt as [x Hx]. rewrite Hx.
  exists x. split; [done |]. by eapply list_elem_of_lookup_2.
Qed.

(** On a well-formed world the cached lookup agrees with the table. *)
Lemma get_trigger_resolved (w : World) (p : string) (t : Trigger) :
  wf_world w → resolve (triggers w) p = Some t →
  ∃ w1, get_trigger p w = (Ok (Some t), w1) ∧
        triggers w1 = triggers w ∧ logs w1 = logs w ∧ sent w1 = sent w ∧
        wf_world w1.
Proof.
  intros Hwf Hres. unfold get_trigger, bind, gets. simpl.
  destruct (cache w !! p) as [t'|] eqn:Hc; simpl.
  - apply (wf_cache w Hwf) in Hc. rewrite Hres in Hc. injection Hc as <-.
    by exists w.
  - unfold resolve in Hres.
    destruct (fetchone (triggers w) p) as [row|] eqn:Hrow; [| done].
    injection Hres as <-. simpl. eexists. split; [done |].
    repeat split; simpl; try apply Hwf.
    intros q t' Hq. destruct (decide (p = q)) as [<-|Hne].
    + rewrite lookup_insert_eq in Hq. injection Hq as <-.
      unfold resolve. by rewrite Hrow.
    + rewrite lookup_insert_ne in Hq by done. by apply (wf_cache w Hwf).
Qed.

Lemma get_trigger_unresolved (w : World) (p : string) :
  wf_world w → resolve (triggers w) p = None →
  ∃ w1, get_trigger p w = (Ok None, w1) ∧
        triggers w1 = triggers w ∧ logs w1 = logs w ∧ sent w1 = sent w ∧
        cache w1 = cache w.
Proof.
  intros Hwf Hres. unfold get_trigger, bind, gets. simpl.
  destruct (cache w !! p) as [t'|] eqn:Hc; simpl.
  - apply (wf_cache w Hwf) in Hc. congruence.
  - unfold resolve in Hres.
    destruct (fetchone (triggers w) p) as [row|] eqn:Hrow; [done |].
    simpl. eexists. by split.
Qed.

(** ** The filter pipeline *)

(** The four guarded [continue] statements, read as one decision. *)
Lemma pipeline_allowed {A} (t : Trigger) (m : Message) (skip fire : A) :
  (if truthy (t_channels t)
      && negb (py_in (m_channel_id m) (t_channels t)) then skip
   else if truthy (t_roles t)
           && negb (existsb (fun role => py_in role (t_roles t))
                      (m_author_roles m)) then skip
   else if py_in (m_author_id m) (t_blacklist_users t) then skip
   else if truthy (t_whitelist_users t)
           && negb (py_in (m_author_id m) (t_whitelist_users t)) then skip
   else fire)
  = if allowed t m then fire else skip.
Proof.
  unfold allowed, channel_check, role_check, blacklist_check, whitelist_check.
  destruct (truthy (t_channels t)), (py_in (m_channel_id m) (t_channels t));
    simpl; try done;
    destruct (truthy (t_roles t)), (existsb _ (m_author_roles m));
    simpl; try done;
    destruct (py_in (m_author_id m) (t_blacklist_users t)); simpl; try done;
    by destruct (truthy (t_whitelist_users t)),
         (py_in (m_author_id m) (t_whitelist_users t)).
Qed.

Section DispatcherFacts.
Context (py : Runtime).

(** The loop body, once the trigger the row resolves to is known. *)
Lemma on_message_row_resolved (o : Oracle) (m : Message) (i : nat)
    (row : Row) (t : Trigger) (w w1 : World) :
  get_trigger (row_pattern row) w = (Ok (Some t), w1) →
  t_responses t ≠ [] →
  ∃ w2, on_message_row py o m i row w = (Ok tt, w2) ∧
    triggers w2 = triggers w1 ∧ cache w2 = cache w1 ∧
    logs w2 = logs w1 ++ (log_entry o m <$> firing_of py o m i t) ∧
    sent w2 = sent w1 ++ (emission m <$> firing_of py o m i t).
Proof.
  intros Hget Hresp. unfold on_message_row, bind at 1. rewrite Hget.
  unfold subscript, bind at 1, ret at 1.
  unfold bind at 1, lift at 1. rewrite match_trigger_total.
  unfold firing_of.
  destruct (matches py t (m_content m)); simpl.
  2: { exists w1. by rewrite !app_nil_r. }
  rewrite pipeline_allowed.
  destruct (allowed t m); simpl.
  2: { exists w1. by rewrite !app_nil_r. }
  destruct (random_choice_nonempty (draw o i) (t_responses t) Hresp)
    as [resp [Hresp' _]].
  unfold bind, lift. rewrite Hresp'. simpl. eexists.
  split; [reflexivity | done].
Qed.

Lemma on_message_row_spec (o : Oracle) (m : Message) (i : nat)
    (row : Row) (t : Trigger) (w : World) :
  wf_world w → resolve (triggers w) (row_pattern row) = Some t →
  ∃ w2, on_message_row py o m i row w = (Ok tt, w2) ∧
    triggers w2 = triggers w ∧
    logs w2 = logs w ++ (log_entry o m <$> firing_of py o m i t) ∧
    sent w2 = sent w ++ (emission m <$> firing_of py o m i t) ∧
    wf_world w2.
Proof.
  intros Hwf Hres.
  destruct (get_trigger_resolved w _ t Hwf Hres)
    as (w1 & Hget & Ht & Hl & Hs & Hwf1).
  destruct (on_message_row_resolved o m i row t w w1 Hget)
    as (w2 & Hrow & Ht2 & Hc2 & Hl2 & Hs2).
  { exact (resolve_responses w _ t Hwf Hres). }
  exists w2. rewrite Ht2, Hl2, Hs2, Ht, Hl, Hs. split_and!; try done.
  eapply wf_world_same; [exact Ht2 | exact Hc2 | exact Hwf1].
Qed.

Lemma on_message_loop_spec (o : Oracle) (m : Message) (rows : list Row) :
  ∀ (i : nat) (w : World),
    wf_world w → rows ⊆ triggers w →
    ∃ w', on_message_loop py o m i rows w = (Ok tt, w') ∧
      triggers w' = triggers w ∧
      logs w' = logs w ++ (log_entry o m <$> firings py (triggers w) o m i rows) ∧
      sent w' = sent w ++ (emission m <$> firings py (triggers w) o m i rows) ∧
      wf_world w'.
Proof.
  induction rows as [|row rest IH]; intros i w Hwf Hsub.
  - exists w. simpl. by rewrite !app_nil_r.
  - assert (row ∈ triggers w) as Hrow by (apply Hsub; left).
    destruct (fetchone_elem _ _ Hrow) as [r0 Hr0].
    assert (resolve (triggers w) (row_pattern row) = Some (trigger_of_row r0))
      as Hres by (unfold resolve; by rewrite Hr0).
    destruct (on_message_row_spec o m i row _ w Hwf Hres)
      as (w1 & Hstep & Ht1 & Hl1 & Hs1 & Hwf1).
    destruct (IH (S i) w1 Hwf1) as (w' & Hloop & Ht' & Hl' & Hs' & Hwf').
    { rewrite Ht1. intros x Hx. apply Hsub. by right. }
    exists w'. cbn [on_message_loop firings]. unfold bind at 1.
    rewrite Hstep, Hres, Ht', Hl', Hs', Ht1, Hl1, Hs1.
    rewrite !fmap_app, !app_assoc. by split_and!.
Qed.

(** One pass of the listener over a well-formed world, for a message
    that does not come from a bot: it ends normally, and what it appends
    to the ledger and sends is given by [firings]. *)
Lemma on_message_spec (o : Oracle) (m : Message) (w : World) :
  wf_world w → m_author_bot m = false →
  ∃ w', on_message py o m w = (Ok tt, w') ∧
    triggers w' = triggers w ∧
    logs w' = logs w ++ (log_entry o m <$> firings py (triggers w) o m 0 (triggers w)) ∧
    sent w' = sent w ++ (emission m <$> firings py (triggers w) o m 0 (triggers w)) ∧
    wf_world w'.
Proof.
  intros Hwf Hbot. unfold on_message. rewrite Hbot.
  unfold bind at 1, select_all_triggers, bind at 1, execute, modify, gets.
  simpl.
  set (w0 := {| triggers := triggers w; logs := logs w; cache := cache w;
                statements := statements w ++ [SelectAllTriggers];
                sent := sent w |}).
  destruct (on_message_loop_spec o m (triggers w) 0%nat w0)
    as (w' & Hloop & Ht & Hl & Hs & Hwf').
  { by apply (wf_world_same w w0). }
  { done. }
  exists w'. by rewrite Hloop.
Qed.

End DispatcherFacts.

(** ** Every reachable world is well formed *)

Lemma NoDup_row_id_eq (rows : list Row) (r r' : Row) :
  NoDup (row_id <$> rows) → r ∈ rows → r' ∈ rows →
  row_id r = row_id r' → r = r'.
Proof.
  induction rows as [|x rows IH]; intros Hnd Hr Hr' Hid; [inversion Hr |].
  rewrite fmap_cons in Hnd. apply NoDup_cons in Hnd as [Hx Hnd].
  inversion Hr; inversion Hr'; subst; try done.
  - destruct Hx. rewrite Hid. by apply list_elem_of_fmap_2.
  - destruct Hx. rewrite <- Hid. by apply list_elem_of_fmap_2.
  - by apply IH.
Qed.

Lemma wf_world_insert (w w' : World) (row : Row) :
  triggers w' = triggers w ++ [row] → cache w' = cache w →
  row_id row = next_rowid (triggers w) → row_responses row ≠ [] →
  wf_world w → wf_world w'.
Proof.
  intros Ht Hc Hid Hresp [H1 H2 H3]. split; rewrite ?Ht, ?Hc.
  - rewrite fmap_app. apply NoDup_app. split_and!; [done | | apply NoDup_singleton].
    intros x Hx Hx'. apply list_elem_of_fmap in Hx as [r [-> Hr]].
    apply list_elem_of_singleton in Hx'. apply next_rowid_fresh in Hr. lia.
  - intros p t Hp. specialize (H2 p t Hp). unfold resolve in *.
    destruct (fetchone (triggers w) p) as [r|] eqn:E; [| done].
    by rewrite (fetchone_app _ [row] _ _ E).
  - intros r Hr. apply elem_of_app in Hr as [Hr | Hr]; [by apply H3 |].
    by apply list_elem_of_singleton in Hr as ->.
Qed.

Lemma wf_world_delete (w w' : World) (p : string) :
  triggers w' = filter (fun r => row_pattern r ≠ p) (triggers w) →
  (∀ q t, cache w' !! q = Some t → q ≠ p ∧ cache w !! q = Some t) →
  wf_world w → wf_world w'.
Proof.
  intros Ht Hc [H1 H2 H3]. split; rewrite ?Ht.
  - eapply sublist_NoDup; [exact H1 |]. apply fmap_sublist, sublist_filter.
  - intros q t Hq. apply Hc in Hq as [Hne Hq]. specialize (H2 q t Hq).
    unfold resolve in *. by rewrite fetchone_filter_ne.
  - intros r Hr. apply list_elem_of_filter in Hr as [_ Hr]. by apply H3.
Qed.

Lemma add_trigger_world (pattern response match_type : string) (now : Z)
    (w : World) :
  ∃ w', add_trigger pattern response match_type now w
        = (Ok (ReplyText ("Trigger '" +:+ pattern +:+ "' added successfully!")),
           w') ∧
    triggers w' = triggers w ++
      [{| row_id := next_rowid (triggers w);
          row_pattern := pattern;
          row_match_type := match_type;
          row_case_sensitive := true;
          row_responses := [{| r_type := "text"; r_content := response |}];
          row_cooldown := 0;
          row_channels := Some []; row_roles := Some [];
          row_blacklist_users := Some []; row_whitelist_users := Some [];
          row_creator_id := 1;
          row_created_at := now |}] ∧
    logs w' = logs w ∧ cache w' = cache w ∧ sent w' = sent w.
Proof. eexists. split; [reflexivity | done]. Qed.

Lemma add_trigger_to_db_world (trigger_data : TriggerData) (now : Z)
    (w : World) :
  ∃ w', add_trigger_to_db trigger_data now w = (Ok tt, w') ∧
    triggers w' = triggers w ++
      [row_of_data trigger_data now (next_rowid (triggers w))] ∧
    logs w' = logs w ∧ cache w' = cache w ∧ sent w' = sent w.
Proof.
  unfold add_trigger_to_db, insert_trigger, bind, gets, execute, set_triggers,
    modify. simpl. eexists. split; [reflexivity | done].
Qed.

Lemma delete_trigger_world (pattern : string) (w : World) :
  ∃ w', delete_trigger pattern w
        = (Ok (ReplyText ("Trigger '" +:+ pattern +:+ "' deleted successfully!")),
           w') ∧
    triggers w' = filter (fun r => row_pattern r ≠ pattern) (triggers w) ∧
    cache w' = delete pattern (cache w) ∧
    logs w' = logs w ∧ sent w' = sent w.
Proof.
  unfold delete_trigger, delete_trigger_by_pattern, bind, gets, execute,
    set_triggers, set_cache, modify, ret. simpl.
  case_bool_decide as Hc; simpl; eexists; (split; [reflexivity |]); simpl.
  - done.
  - split_and!; try done. symmetry. apply delete_id.
    by apply eq_None_not_Some.
Qed.

Section Reachability.
Context (py : Runtime).

Lemma run_wf (c : command) (w : World) :
  wf_world w → wf_world (run py c w).2.
Proof.
  intros Hwf. destruct c as [pattern response match_type now | pattern | | o m];
    cbn [run].
  - destruct (add_trigger_world pattern response match_type now w)
      as (w' & Hrun & Ht & _ & Hc & _).
    unfold bind. rewrite Hrun. simpl.
    eapply wf_world_insert; [exact Ht | exact Hc | done | done | done].
  - destruct (delete_trigger_world pattern w) as (w' & Hrun & Ht & Hc & _).
    unfold bind. rewrite Hrun. simpl.
    eapply wf_world_delete; [exact Ht | | done].
    intros q t. rewrite Hc. intros Hq.
    apply lookup_delete_Some in Hq as [Hne Hq]. by split.
  - unfold bind, list_triggers, bind, execute, modify, gets. simpl.
    destruct (truthy (triggers w)); simpl; by apply (wf_world_same w).
  - destruct (m_author_bot m) eqn:Hbot.
    + unfold on_message. by rewrite Hbot.
    + destruct (on_message_spec py o m w Hwf Hbot) as (w' & Hrun & _ & _ & _ & Hwf').
      by rewrite Hrun.
Qed.

Lemma run_all_wf (cs : list command) (w : World) :
  wf_world w → wf_world (run_all py cs w).
Proof.
  revert w. induction cs as [|c cs IH]; intros w Hwf; [done |].
  simpl. apply IH. by apply run_wf.
Qed.

Lemma reachable_wf (w : World) : reachable py w → wf_world w.
Proof. intros [cs ->]. apply run_all_wf, wf_empty_world. Qed.

End Reachability.

(** ** Firings *)

Section Firings.
Context (py : Runtime).

Lemma firing_of_elem (o : Oracle) (m : Message) (i : nat) (t : Trigger)
    (f : Firing) :
  f ∈ firing_of py o m i t →
  f_index f = i ∧ f_trigger f = t ∧ f_response f ∈ t_responses t ∧
  matches py t (m_content m) = true ∧ allowed t m = true.
Proof.
  unfold firing_of.
  destruct (matches py t (m_content m)); simpl; [| by intros ?%elem_of_nil].
  destruct (allowed t m); simpl; [| by intros ?%elem_of_nil].
  unfold random_choice.
  destruct (t_responses t !! _) as [resp|] eqn:E; [| by intros ?%elem_of_nil].
  intros ->%list_elem_of_singleton. simpl. split_and!; try done.
  by eapply list_elem_of_lookup_2.
Qed.


(** Every firing of a pass belongs to a row of the scan and to the
    trigger that row's pattern resolves to. *)
Lemma firings_elem (all : list Row) (o : Oracle) (m : Message)
    (rows : list Row) :
  ∀ (i : nat) (f : Firing),
    f ∈ firings py all o m i rows →
    ∃ (j : nat) (row : Row) (t : Trigger),
      rows !! j = Some row ∧ f_index f = (i + j)%nat ∧
      resolve all (row_pattern row) = Some t ∧
      f ∈ firing_of py o m (i + j) t.
Proof.
  induction rows as [|row rest IH]; intros i f Hf; [by apply elem_of_nil in Hf |].
  cbn [firings] in Hf. apply elem_of_app in Hf as [Hf | Hf].
  - destruct (resolve all (row_pattern row)) as [t|] eqn:E;
      [| by apply elem_of_nil in Hf].
    exists 0%nat, row, t. rewrite Nat.add_0_r. split_and!; try done.
    by apply firing_of_elem in Hf as [? _].
  - destruct (IH _ _ Hf) as (j & r & t & Hj & Hi & Hres & Hin).
    exists (S j), r, t. rewrite <- Nat.add_succ_comm. by split_and!.
Qed.



End Firings.

Lemma filter_all_ne (rows : list Row) (p : string) :
  (∀ r, r ∈ rows → row_pattern r ≠ p) →
  filter (fun r => row_pattern r ≠ p) rows = rows.
Proof.
  induction rows as [|x rows IH]; intros H; [done |].
  rewrite filter_cons. destruct (decide (row_pattern x ≠ p)) as [_|Hx].
  - f_equal. apply IH. intros r Hr. apply H. by right.
  - destruct Hx. apply H. left.
Qed.

Lemma wf_cache_absent (w : World) (p : string) :
  wf_world w → (∀ r, r ∈ triggers w → row_pattern r ≠ p) →
  cache w !! p = None.
Proof.
  intros Hwf Hp. destruct (cache w !! p) as [t|] eqn:E; [| done].
  apply (wf_cache w Hwf) in E. unfold resolve in E.
  apply fetchone_None in Hp. by rewrite Hp in E.
Qed.

(** * The claims *)

Lemma C3_witness :
  ∃ b, match_trigger py_ascii (sample_trigger "hello" "exact" true) "hello" = Ok b
       ∧ (b = true ↔ "hello" = "hello").
Proof.
  apply (C3_exact_case_sensitive py_ascii (sample_trigger "hello" "exact" true));
    reflexivity.
Defined.

Lemma C8_witness :
  ∃ b, match_trigger py_ascii (sample_trigger "Hello" "partial" false) "say HELLO" = Ok b
       ∧ (b = true ↔ substring_of (Str.lower "Hello") (Str.lower "say HELLO")).
Proof.
  apply (C8_partial_substring py_ascii (sample_trigger "Hello" "partial" false)).
  reflexivity.
Defined.



(** C9. A message whose author is a bot account, the cog's own messages
    among them, ends the listener at its first statement: nothing is read
    from the database or the cache, no trigger is looked up or matched,
    nothing is sent and nothing is logged; the world is left as it was,
    whatever triggers are stored. *)
Theorem C9_bot_messages_ignored (py : Runtime) (o : Oracle) (m : Message)
    (w : World) :
  m_author_bot m = true → on_message py o m w = (Ok tt, w).
Proof. intros H. unfold on_message. by rewrite H. Qed.

Lemma C9_witness :
  on_message py_ascii sample_oracle (bot_message "hello") distinct_world
  = (Ok tt, distinct_world).
Proof.
  apply (C9_bot_messages_ignored py_ascii sample_oracle (bot_message "hello")).
  reflexivity.
Defined.

(** C5. Once a row's trigger has matched, the loop body fires exactly when
    the four checks (channel scope, role scope, blacklist, whitelist) all
    pass, each check being vacuous when its list is empty: it then logs one
    record and sends one of the trigger's responses, and otherwise leaves
    the ledger and the channel alone. In particular a blacklisted author
    never fires the trigger, whatever the whitelist holds. *)
Theorem C5_filter_pipeline_conjunction (py : Runtime) (o : Oracle)
    (m : Message) (i : nat) (row : Row) (t : Trigger) (w w1 : World) :
  get_trigger (row_pattern row) w = (Ok (Some t), w1) →
  matches py t (m_content m) = true →
  t_responses t ≠ [] →
  ∃ w2, on_message_row py o m i row w = (Ok tt, w2) ∧
    (if channel_check t m && role_check t m && blacklist_check t m
        && whitelist_check t m
     then ∃ resp, resp ∈ t_responses t ∧
            logs w2 = logs w1 ++ [{| log_trigger_id := t_id t;
                                     log_user_id := m_author_id m;
                                     log_channel_id := m_channel_id m;
                                     log_timestamp := utcnow o i |}] ∧
            sent w2 = sent w1 ++ [{| sent_channel := m_channel_id m;
                                     sent_what := create_response resp |}]
     else logs w2 = logs w1 ∧ sent w2 = sent w1) ∧
    (py_in (m_author_id m) (t_blacklist_users t) = true →
     logs w2 = logs w1 ∧ sent w2 = sent w1).
Proof.
  intros Hget Hmatch Hresp.
  destruct (on_message_row_resolved py o m i row t w w1 Hget Hresp)
    as (w2 & Hrow & _ & _ & Hl & Hs).
  exists w2. split; [done |]. fold (allowed t m).
  assert (allowed t m = false → logs w2 = logs w1 ∧ sent w2 = sent w1) as Hno.
  { intros Hal. rewrite Hl, Hs. unfold firing_of. rewrite Hal, andb_false_r.
    simpl. by rewrite !app_nil_r. }
  split.
  - destruct (allowed t m) eqn:Hal; [| by apply Hno].
    unfold firing_of in Hl, Hs. rewrite Hmatch, Hal in Hl, Hs. simpl in Hl, Hs.
    destruct (random_choice_nonempty (draw o i) _ Hresp) as [resp [Hc Hin]].
    rewrite Hc in Hl, Hs. by exists resp.
  - intros Hbl. apply Hno. unfold allowed, blacklist_check. rewrite Hbl.
    simpl. by rewrite andb_false_r.
Qed.

Lemma C5_witness :
  py_in 42 (t_whitelist_users (trigger_of_row guarded_row)) = true ∧
  ∃ w2, on_message_row py_ascii sample_oracle listed_message 0 guarded_row
          guarded_world = (Ok tt, w2) ∧
        logs w2 = [] ∧ sent w2 = [].
Proof.
  split; [reflexivity |].
  destruct (C5_filter_pipeline_conjunction py_ascii sample_oracle listed_message
              0 guarded_row (trigger_of_row guarded_row) guarded_world
              (get_trigger "hello" guarded_world).2)
    as (w2 & Hrow & _ & Hbl); [reflexivity | reflexivity | done |].
  exists w2. split; [exact Hrow |]. apply Hbl. reflexivity.
Defined.




(** A message of another bot is not a self-message, and is dropped all the
    same although a stored trigger matches it. *)
Lemma other_bot_dropped :
  let m := {| m_content := "hello"; m_author_id := 99; m_author_bot := true;
              m_author_roles := []; m_channel_id := 5 |} in
  Exists (fun r => matches py_ascii (trigger_of_row r) (m_content m)
                   && allowed (trigger_of_row r) m = true)
         (triggers distinct_world) ∧
  ∀ o, on_message py_ascii o m distinct_world = (Ok tt, distinct_world).
Proof. split; [left; by vm_compute | done]. Qed.



(** ** Deleting *)

Lemma get_trigger_absent (p : string) (w : World) :
  cache w !! p = None → fetchone (triggers w) p = None →
  ∃ w', get_trigger p w = (Ok None, w') ∧
        triggers w' = triggers w ∧ cache w' = cache w ∧
        logs w' = logs w ∧ sent w' = sent w.
Proof.
  intros Hc Hf. unfold get_trigger, bind, gets. simpl. rewrite Hc. simpl.
  rewrite Hf. simpl. eexists. by split.
Qed.

(** C6. [delete_trigger] answers with its success message and never
    raises. Afterwards no row carries the pattern and the cache has no
    entry for it, so that [get_trigger] on the pattern returns [None]; in
    any later pass no firing is made by a trigger with that pattern, and no
    ledger record names a deleted row. Deleting a pattern that no row
    carries leaves tables and cache as they are, and so does deleting a
    second time. *)
Theorem C6_delete_trigger_removes (py : Runtime) (p : string) (w : World) :
  wf_world w →
  ∃ w1,
    delete_trigger p w
    = (Ok (ReplyText ("Trigger '" +:+ p +:+ "' deleted successfully!")), w1) ∧
    triggers w1 = filter (fun r => row_pattern r ≠ p) (triggers w) ∧
    (∀ r, r ∈ triggers w1 → row_pattern r ≠ p) ∧
    cache w1 !! p = None ∧
    (∃ w2, get_trigger p w1 = (Ok None, w2) ∧
           triggers w2 = triggers w1 ∧ cache w2 = cache w1) ∧
    (∀ o m, ∃ w2 F,
       on_message py o m w1 = (Ok tt, w2) ∧
       logs w2 = logs w1 ++ (log_entry o m <$> F) ∧
       sent w2 = sent w1 ++ (emission m <$> F) ∧
       ∀ f, f ∈ F →
         t_pattern (f_trigger f) ≠ p ∧
         ∀ r, r ∈ triggers w → row_pattern r = p →
              log_trigger_id (log_entry o m f) ≠ row_id r) ∧
    ((∀ r, r ∈ triggers w → row_pattern r ≠ p) →
     triggers w1 = triggers w ∧ cache w1 = cache w ∧
     logs w1 = logs w ∧ sent w1 = sent w) ∧
    (∃ w2,
       delete_trigger p w1
       = (Ok (ReplyText ("Trigger '" +:+ p +:+ "' deleted successfully!")), w2) ∧
       triggers w2 = triggers w1 ∧ cache w2 = cache w1 ∧
       logs w2 = logs w1 ∧ sent w2 = sent w1).
Proof.
  intros Hwf.
  destruct (delete_trigger_world p w) as (w1 & Hrun & Ht & Hc & Hl & Hs).
  assert (wf_world w1) as Hwf1.
  { eapply wf_world_delete; [exact Ht | | exact Hwf].
    intros q t. rewrite Hc. intros Hq.
    apply lookup_delete_Some in Hq as [Hne Hq]. by split. }
  assert (∀ r, r ∈ triggers w1 → row_pattern r ≠ p) as Hgone.
  { intros r. rewrite Ht. by intros [? _]%list_elem_of_filter. }
  assert (cache w1 !! p = None) as Hcp by (rewrite Hc; apply lookup_delete_eq).
  exists w1. split_and!; try done.
  - destruct (get_trigger_absent p w1 Hcp) as (w2 & Hg & Ht2 & Hc2 & _).
    { by apply fetchone_None. }
    by exists w2.
  - intros o m. destruct (m_author_bot m) eqn:Hbot.
    + exists w1, []. unfold on_message. rewrite Hbot. simpl.
      rewrite !app_nil_r. split_and!; try done. by intros f ?%elem_of_nil.
    + destruct (on_message_spec py o m w1 Hwf1 Hbot)
        as (w2 & Hpass & _ & Hl2 & Hs2 & _).
      exists w2, (firings py (triggers w1) o m 0 (triggers w1)).
      split_and!; try done. intros f Hf.
      destruct (firings_elem py _ o m _ _ _ Hf)
        as (j & row & t & _ & _ & Hres & Hin).
      apply firing_of_elem in Hin as (_ & Hft & _). unfold resolve in Hres.
      destruct (fetchone (triggers w1) (row_pattern row)) as [first|] eqn:E;
        [| done].
      injection Hres as <-. apply fetchone_Some in E as [Hfirst _].
      simpl. rewrite Hft. simpl.
      split; [by apply Hgone |]. intros r Hr Hrp Hid.
      assert (first ∈ triggers w) as Hfirst'.
      { rewrite Ht in Hfirst. by apply list_elem_of_filter in Hfirst as [_ ?]. }
      rewrite (NoDup_row_id_eq (triggers w) first r (wf_ids w Hwf) Hfirst' Hr Hid)
        in Hfirst.
      by destruct (Hgone r Hfirst).
  - intros Hnone. rewrite Ht, Hc, Hl, Hs. split_and!; try done.
    + by apply filter_all_ne.
    + apply delete_id. by apply wf_cache_absent.
  - destruct (delete_trigger_world p w1) as (w2 & Hrun2 & Ht2 & Hc2 & Hl2 & Hs2).
    exists w2. rewrite Ht2, Hc2. split_and!; try done.
    + by apply filter_all_ne.
    + by apply delete_id.
Qed.

Lemma C6_witness :
  ∃ w1, delete_trigger "hi" cached_world
        = (Ok (ReplyText "Trigger 'hi' deleted successfully!"), w1) ∧
    row_pattern <$> triggers w1 = ["hello"] ∧
    cache w1 !! "hi" = None ∧
    ∃ w2, get_trigger "hi" w1 = (Ok None, w2).
Proof.
  destruct (C6_delete_trigger_removes py_ascii "hi" cached_world)
    as (w1 & Hrun & Ht & _ & Hc & (w2 & Hget & _) & _).
  - apply (reachable_wf py_ascii). by exists cached_commands.
  - exists w1. split; [exact Hrun |]. split; [by rewrite Ht |].
    split; [exact Hc |]. by exists w2.
Defined.

(** ** Creating *)

Section Creation.
Context (py : Runtime).

(** A command adds at most rows that hold a single text response. *)
Lemma run_rows (c : command) (w : World) (r : Row) :
  wf_world w → r ∈ triggers (run py c w).2 →
  r ∈ triggers w ∨
  ∃ resp, row_responses r = [{| r_type := "text"; r_content := resp |}].
Proof.
  intros Hwf. destruct c as [pattern response match_type now | pattern | | o m];
    cbn [run].
  - destruct (add_trigger_world pattern response match_type now w)
      as (w' & Hrun & Ht & _).
    unfold bind. rewrite Hrun. simpl. rewrite Ht.
    intros [Hr | ->%list_elem_of_singleton]%elem_of_app; [by left |].
    right. by exists response.
  - destruct (delete_trigger_world pattern w) as (w' & Hrun & Ht & _).
    unfold bind. rewrite Hrun. simpl. rewrite Ht.
    intros [_ Hr]%list_elem_of_filter. by left.
  - unfold bind, list_triggers, bind, execute, modify, gets. simpl.
    destruct (truthy (triggers w)); simpl; by left.
  - destruct (m_author_bot m) eqn:Hbot.
    + unfold on_message. rewrite Hbot. by left.
    + destruct (on_message_spec py o m w Hwf Hbot) as (w' & Hrun & Ht & _).
      rewrite Hrun. simpl. rewrite Ht. by left.
Qed.

Lemma run_all_rows (cs : list command) :
  ∀ w : World,
    wf_world w →
    (∀ r, r ∈ triggers w →
       ∃ resp, row_responses r = [{| r_type := "text"; r_content := resp |}]) →
    ∀ r, r ∈ triggers (run_all py cs w) →
       ∃ resp, row_responses r = [{| r_type := "text"; r_content := resp |}].
Proof.
  induction cs as [|c cs IH]; intros w Hwf Hrows; [done |].
  simpl. apply IH; [by apply run_wf |].
  intros r Hr. destruct (run_rows c w r Hwf Hr); eauto.
Qed.

End Creation.

(** C2, as the code has it. Creation validates nothing. Whatever the
    pattern, the response text and the match type are (the empty string
    included), [add_trigger] appends one row holding them under a fresh id
    and answers with its success message; [add_trigger_to_db] stores the
    data it is given as they are. The command always stores exactly one
    text response, so in every world the cog can reach every stored row
    has a non-empty response list. *)
Theorem C2_add_trigger_stores_without_validation (py : Runtime)
    (cs : list command) (pattern response match_type : string) (now : Z)
    (trigger_data : TriggerData) :
  let w := run_all py cs empty_world in
  (∃ w', add_trigger pattern response match_type now w
         = (Ok (ReplyText ("Trigger '" +:+ pattern +:+ "' added successfully!")),
            w') ∧
     triggers w' = triggers w ++
       [{| row_id := next_rowid (triggers w);
           row_pattern := pattern;
           row_match_type := match_type;
           row_case_sensitive := true;
           row_responses := [{| r_type := "text"; r_content := response |}];
           row_cooldown := 0;
           row_channels := Some []; row_roles := Some [];
           row_blacklist_users := Some []; row_whitelist_users := Some [];
           row_creator_id := 1;
           row_created_at := now |}]) ∧
  (∃ w', add_trigger_to_db trigger_data now w = (Ok tt, w') ∧
     triggers w' = triggers w ++
       [row_of_data trigger_data now (next_rowid (triggers w))]) ∧
  Forall (fun r => ∃ resp,
            row_responses r = [{| r_type := "text"; r_content := resp |}])
         (triggers w).
Proof.
  intros w. split_and!.
  - destruct (add_trigger_world pattern response match_type now w)
      as (w' & Hrun & Ht & _). by exists w'.
  - destruct (add_trigger_to_db_world trigger_data now w) as (w' & Hrun & Ht & _).
    by exists w'.
  - apply Forall_forall. intros r Hr.
    apply (run_all_rows py cs empty_world); [apply wf_empty_world | | done].
    intros x Hx. inversion Hx.
Qed.

(** An empty pattern is accepted: the command answers with its success
    message and the table holds a row whose pattern is empty. *)
Lemma C2_counterexample :
  ∃ w', add_trigger "" "hi!" "exact" 0 empty_world
        = (Ok (ReplyText "Trigger '' added successfully!"), w') ∧
    ∃ row, triggers w' = [row] ∧ row_pattern row = "".
Proof. eexists. split; [reflexivity |]. eexists. by split. Qed.

(** ** Scenarios *)

(** One exact trigger, one matching message: one response, one record. *)
Example scenario_hello :
  let w := run_all py_ascii [AddTrigger "hello" "hi!" "exact" 1] empty_world in
  let w' := (on_message py_ascii sample_oracle (user_message "hello") w).2 in
  sent w' = [{| sent_channel := 5; sent_what := RespStr "hi!" |}] ∧
  logs w' = [{| log_trigger_id := 1; log_user_id := 43; log_channel_id := 5;
                log_timestamp := 1700000000 |}].
Proof. by vm_compute. Qed.

(** The regex search is not anchored. *)
Example scenario_regex :
  match_trigger py_ascii (sample_trigger "h.*o" "regex" true) "hello there"
  = Ok true.
Proof. by vm_compute. Qed.

(** A user outside a non-empty whitelist does not fire the trigger. *)
Example scenario_whitelist :
  let m := {| m_content := "hello"; m_author_id := 44; m_author_bot := false;
              m_author_roles := []; m_channel_id := 5 |} in
  let w' := (on_message py_ascii sample_oracle m guarded_world).2 in
  matches py_ascii (trigger_of_row guarded_row) (m_content m) = true ∧
  sent w' = [] ∧ logs w' = [].
Proof. by vm_compute. Qed.

(** Rows that share a pattern fire the first of them, once per row. *)
Example scenario_shared_pattern :
  let w' := (on_message py_ascii sample_oracle (user_message "hi") shared_world).2 in
  log_trigger_id <$> logs w' = [1; 1] ∧
  sent_what <$> sent w' = [RespStr "A"; RespStr "A"].
Proof. by vm_compute. Qed.

(** * Further properties of the cog *)

(** ** What a pass can and cannot do, on any world *)

Lemma get_trigger_frame (p : string) (w : World) :
  ∃ r w', get_trigger p w = (Ok r, w') ∧
    triggers w' = triggers w ∧ logs w' = logs w ∧ sent w' = sent w.
Proof.
  unfold get_trigger, bind, gets. simpl.
  destruct (cache w !! p) as [t|]; simpl; [by eexists _, _ |].
  destruct (fetchone (triggers w) p); simpl; by eexists _, _.
Qed.

Section Passes.
Context (py : Runtime).

(** What one iteration appends: at most one record and one message, and
    always both or none, addressed to the channel and the author of the
    message. *)
Lemma on_message_row_frame (o : Oracle) (m : Message) (i : nat) (row : Row)
    (w : World) :
  ∃ out w' ls ss,
    on_message_row py o m i row w = (out, w') ∧
    triggers w' = triggers w ∧
    logs w' = logs w ++ ls ∧ sent w' = sent w ++ ss ∧
    length ls = length ss ∧ (length ls ≤ 1)%nat ∧
    Forall (fun l => log_user_id l = m_author_id m
                     ∧ log_channel_id l = m_channel_id m) ls ∧
    Forall (fun x => sent_channel x = m_channel_id m) ss.
Proof.
  destruct (get_trigger_frame (row_pattern row) w) as (r & w1 & Hget & Ht & Hl & Hs).
  unfold on_message_row, bind at 1. rewrite Hget.
  assert (∀ out : outcome unit, ∃ out' w' ls ss,
            (out, w1) = (out', w') ∧ triggers w' = triggers w ∧
            logs w' = logs w ++ ls ∧ sent w' = sent w ++ ss ∧
            length ls = length ss ∧ (length ls ≤ 1)%nat ∧
            Forall (fun l => log_user_id l = m_author_id m
                             ∧ log_channel_id l = m_channel_id m) ls ∧
            Forall (fun x => sent_channel x = m_channel_id m) ss) as Hskip.
  { intros out. exists out, w1, [], []. rewrite !app_nil_r.
    split_and!; simpl; try done; try lia; by constructor. }
  destruct r as [t|]; [| apply Hskip].
  unfold subscript, bind at 1, ret at 1.
  unfold bind at 1, lift at 1. rewrite match_trigger_total.
  destruct (matches py t (m_content m)); simpl; [| apply Hskip].
  rewrite pipeline_allowed. destruct (allowed t m); [| apply Hskip].
  unfold bind at 1, lift at 1.
  destruct (random_choice (draw o i) (t_responses t)) as [resp|e]; [| apply Hskip].
  eexists _, _, [_], [_]. split; [reflexivity |]. simpl.
  rewrite Ht, Hl, Hs. split_and!; try done; by repeat constructor.
Qed.

Lemma on_message_loop_frame (o : Oracle) (m : Message) (rows : list Row) :
  ∀ (i : nat) (w : World),
  ∃ out w' ls ss,
    on_message_loop py o m i rows w = (out, w') ∧
    triggers w' = triggers w ∧
    logs w' = logs w ++ ls ∧ sent w' = sent w ++ ss ∧
    length ls = length ss ∧ (length ls ≤ length rows)%nat ∧
    Forall (fun l => log_user_id l = m_author_id m
                     ∧ log_channel_id l = m_channel_id m) ls ∧
    Forall (fun x => sent_channel x = m_channel_id m) ss.
Proof.
  induction rows as [|row rest IH]; intros i w.
  - exists (Ok tt), w, [], []. rewrite !app_nil_r.
    split_and!; simpl; try done; by constructor.
  - destruct (on_message_row_frame o m i row w)
      as (out & w1 & ls & ss & Hrow & Ht & Hl & Hs & Hlen & Hle & Hls & Hss).
    cbn [on_message_loop]. unfold bind at 1. rewrite Hrow.
    destruct out as [[]|e].
    + destruct (IH (S i) w1)
        as (out' & w' & ls' & ss' & Hloop & Ht' & Hl' & Hs' & Hlen' & Hle' & Hls' & Hss').
      exists out', w', (ls ++ ls'), (ss ++ ss'). rewrite Hloop.
      rewrite Ht', Hl', Hs', Ht, Hl, Hs, !app_assoc, !length_app.
      split_and!; try done; try (by apply Forall_app); simpl; lia.
    + exists (Raise e), w1, ls, ss. split_and!; try done. simpl. lia.
Qed.

Lemma on_message_frame (o : Oracle) (m : Message) (w : World) :
  ∃ out w' ls ss,
    on_message py o m w = (out, w') ∧
    triggers w' = triggers w ∧
    logs w' = logs w ++ ls ∧ sent w' = sent w ++ ss ∧
    length ls = length ss ∧ (length ls ≤ length (triggers w))%nat ∧
    Forall (fun l => log_user_id l = m_author_id m
                     ∧ log_channel_id l = m_channel_id m) ls ∧
    Forall (fun x => sent_channel x = m_channel_id m) ss.
Proof.
  unfold on_message. destruct (m_author_bot m).
  - exists (Ok tt), w, [], []. rewrite !app_nil_r.
    split_and!; simpl; try done; try lia; by constructor.
  - unfold bind at 1, select_all_triggers, bind at 1, execute, modify, gets.
    simpl.
    set (w0 := {| triggers := triggers w; logs := logs w; cache := cache w;
                  statements := statements w ++ [SelectAllTriggers];
                  sent := sent w |}).
    apply (on_message_loop_frame o m (triggers w) 0%nat w0).
Qed.

End Passes.

(** X1. Whatever the world and however the pass ends, [on_message] leaves
    the [triggers] table as it is and only appends to the ledger and to
    the channel: as many records as messages, at most one of each per
    stored row, every record naming the author and the channel of the
    message and every response sent to that channel. *)
Theorem pass_appends_in_step (py : Runtime) (o : Oracle) (m : Message)
    (w : World) :
  let w' := (on_message py o m w).2 in
  triggers w' = triggers w ∧
  ∃ ls ss,
    logs w' = logs w ++ ls ∧ sent w' = sent w ++ ss ∧
    length ls = length ss ∧ (length ls ≤ length (triggers w))%nat ∧
    Forall (fun l => log_user_id l = m_author_id m
                     ∧ log_channel_id l = m_channel_id m) ls ∧
    Forall (fun x => sent_channel x = m_channel_id m) ss.
Proof.
  destruct (on_message_frame py o m w) as (out & w' & ls & ss & Hrun & Ht & H).
  rewrite Hrun. simpl. split; [done |]. by exists ls, ss.
Qed.


(** ** Invariants of the worlds the commands build *)

Section CommandInvariants.
Context (py : Runtime).

(** How each command changes the [triggers] table, on any world. *)
Lemma run_triggers (c : command) (w : World) :
  triggers (run py c w).2
  = match c with
    | AddTrigger pattern response match_type now =>
        triggers w ++
        [added_row pattern response match_type now (next_rowid (triggers w))]
    | DeleteTrigger pattern =>
        filter (fun r => row_pattern r ≠ pattern) (triggers w)
    | ListTriggers | OnMessage _ _ => triggers w
    end.
Proof.
  destruct c as [pattern response match_type now | pattern | | o m]; cbn [run].
  - destruct (add_trigger_world pattern response match_type now w)
      as (w' & Hrun & Ht & _).
    unfold bind. rewrite Hrun. simpl. by rewrite Ht.
  - destruct (delete_trigger_world pattern w) as (w' & Hrun & Ht & _).
    unfold bind. by rewrite Hrun.
  - unfold bind, list_triggers, bind, execute, modify, gets. simpl.
    by destruct (truthy (triggers w)).
  - destruct (on_message_frame py o m w) as (out & w' & ls & ss & Hrun & Ht & _).
    by rewrite Hrun.
Qed.

Lemma run_all_invariant (I : World → Prop) :
  (∀ c w, I w → I (run py c w).2) →
  ∀ cs w, I w → I (run_all py cs w).
Proof.
  intros Hstep cs. induction cs as [|c cs IH]; intros w Hw; [done |].
  simpl. by apply IH, Hstep.
Qed.

Lemma sorted_ids_filter (P : Row → Prop) `{∀ r, Decision (P r)}
    (rows : list Row) :
  StronglySorted Z.lt (row_id <$> rows) →
  StronglySorted Z.lt (row_id <$> filter P rows).
Proof.
  induction rows as [|x rows IH]; [done |].
  rewrite fmap_cons, StronglySorted_cons. intros [Hx Hs].
  rewrite filter_cons. destruct (decide (P x)); [| by apply IH].
  rewrite fmap_cons, StronglySorted_cons. split; [| by apply IH].
  rewrite Forall_fmap in *. rewrite Forall_forall in *.
  intros r [_ Hr]%list_elem_of_filter. by apply Hx.
Qed.

Lemma next_rowid_positive (rows : list Row) : 1 ≤ next_rowid rows.
Proof.
  unfold next_rowid. induction rows as [|x rows IH]; [simpl; lia |].
  rewrite fmap_cons. cbn [foldr]. lia.
Qed.

Lemma run_sorted_ids (c : command) (w : World) :
  StronglySorted Z.lt (row_id <$> triggers w)
  ∧ Forall (fun r => 1 ≤ row_id r) (triggers w) →
  StronglySorted Z.lt (row_id <$> triggers (run py c w).2)
  ∧ Forall (fun r => 1 ≤ row_id r) (triggers (run py c w).2).
Proof.
  intros [Hs Hpos]. rewrite run_triggers.
  destruct c as [pattern response match_type now | pattern | | o m];
    [| | done | done].
  - split.
    + rewrite fmap_app. apply StronglySorted_app_2; [| done | by repeat constructor].
      intros x1 x2 [r [-> Hr]]%list_elem_of_fmap ->%list_elem_of_singleton.
      simpl. by apply next_rowid_fresh.
    + apply Forall_app. split; [done |]. repeat constructor. simpl.
      apply next_rowid_positive.
  - split; [by apply sorted_ids_filter |].
    rewrite Forall_forall in *. intros r [_ Hr]%list_elem_of_filter.
    by apply Hpos.
Qed.

Lemma run_command_made (c : command) (w : World) :
  Forall command_made (triggers w) →
  Forall command_made (triggers (run py c w).2).
Proof.
  intros Hw. rewrite run_triggers.
  destruct c as [pattern response match_type now | pattern | | o m];
    [| | done | done].
  - apply Forall_app. split; [done |]. repeat constructor.
    by exists pattern, response, match_type, now, (next_rowid (triggers w)).
  - rewrite Forall_forall in *. intros r [_ Hr]%list_elem_of_filter.
    by apply Hw.
Qed.

End CommandInvariants.

Lemma command_made_allowed (r : Row) (m : Message) :
  command_made r → allowed (trigger_of_row r) m = true.
Proof. by intros (pattern & response & match_type & now & rowid & ->). Qed.

(** X3. After any sequence of commands the ids of the stored triggers are
    positive and strictly increasing along the table, so that the order in
    which a pass meets the triggers is the order of their creation. *)
Theorem ids_increase_along_table (py : Runtime) (cs : list command) :
  let w := run_all py cs empty_world in
  StronglySorted Z.lt (row_id <$> triggers w)
  ∧ Forall (fun r => 1 ≤ row_id r) (triggers w).
Proof.
  apply (run_all_invariant py
           (fun w => StronglySorted Z.lt (row_id <$> triggers w)
                     ∧ Forall (fun r => 1 ≤ row_id r) (triggers w))).
  - apply run_sorted_ids.
  - split; constructor.
Qed.

(** X4. The cache never goes stale under the commands: after any sequence
    of commands, an entry stored under a pattern is the trigger built from
    the first row that carries this pattern in the table as it is now. *)
Theorem cache_agrees_with_table (py : Runtime) (cs : list command)
    (p : string) (t : Trigger) :
  let w := run_all py cs empty_world in
  cache w !! p = Some t →
  ∃ row, fetchone (triggers w) p = Some row ∧ row ∈ triggers w ∧
         t = trigger_of_row row ∧ t_pattern t = p.
Proof.
  intros w Hc.
  assert (wf_world w) as Hwf by (apply (reachable_wf py); by exists cs).
  apply (wf_cache w Hwf) in Hc. unfold resolve in Hc.
  destruct (fetchone (triggers w) p) as [row|] eqn:E; [| done].
  injection Hc as <-. exists row.
  apply fetchone_Some in E as [Hrow Hp]. by split_and!.
Qed.

Lemma cache_agrees_with_table_witness :
  ∃ row, fetchone (triggers cached_world) "hi" = Some row ∧
         row ∈ triggers cached_world ∧
         row_id row = 1 ∧ row_match_type row = "exact".
Proof.
  destruct (cache_agrees_with_table py_ascii cached_commands "hi"
              (trigger_of_row (added_row "hi" "A" "exact" 1 1)))
    as (row & Hrow & Hin & Ht & _); [reflexivity |].
  exists row. split_and!; [exact Hrow | exact Hin | |].
  - exact (eq_sym (f_equal t_id Ht)).
  - exact (eq_sym (f_equal t_match_type Ht)).
Defined.

(** X5. Every trigger the commands store is case sensitive, carries a
    single text response and has empty channel, role, blacklist and
    whitelist columns; the filter pipeline therefore lets every message
    through for every stored trigger. *)
Theorem stored_triggers_are_unscoped (py : Runtime) (cs : list command)
    (m : Message) :
  Forall (fun r => command_made r ∧ allowed (trigger_of_row r) m = true)
         (triggers (run_all py cs empty_world)).
Proof.
  assert (Forall command_made (triggers (run_all py cs empty_world))) as H.
  { apply (run_all_invariant py (fun w => Forall command_made (triggers w)));
      [apply run_command_made | constructor]. }
  rewrite Forall_forall in *. intros r Hr. split; [by apply H |].
  by apply command_made_allowed, H.
Qed.

Section TextOnly.
Context (py : Runtime).

Lemma run_text_only (c : command) (w : World) :
  wf_world w ∧ Forall command_made (triggers w)
  ∧ Forall (fun x => ∃ txt, sent_what x = RespStr txt) (sent w) →
  wf_world (run py c w).2 ∧ Forall command_made (triggers (run py c w).2)
  ∧ Forall (fun x => ∃ txt, sent_what x = RespStr txt) (sent (run py c w).2).
Proof.
  intros (Hwf & Hmade & Hsent).
  split; [by apply run_wf |]. split; [by apply run_command_made |].
  destruct c as [pattern response match_type now | pattern | | o m]; cbn [run].
  - destruct (add_trigger_world pattern response match_type now w)
      as (w' & Hrun & _ & _ & _ & Hs).
    unfold bind. rewrite Hrun. simpl. by rewrite Hs.
  - destruct (delete_trigger_world pattern w) as (w' & Hrun & _ & _ & _ & Hs).
    unfold bind. rewrite Hrun. simpl. by rewrite Hs.
  - unfold bind, list_triggers, bind, execute, modify, gets. simpl.
    by destruct (truthy (triggers w)).
  - destruct (m_author_bot m) eqn:Hbot.
    + unfold on_message. by rewrite Hbot.
    + destruct (on_message_spec py o m w Hwf Hbot) as (w' & Hrun & _ & _ & Hs & _).
      rewrite Hrun. simpl. rewrite Hs. apply Forall_app. split; [done |].
      rewrite Forall_fmap. apply Forall_forall. intros f Hf.
      destruct (firings_elem py _ o m _ _ _ Hf) as (j & row & t & _ & _ & Hres & Hin).
      apply firing_of_elem in Hin as (_ & Ht & Hresp & _).
      unfold resolve in Hres.
      destruct (fetchone (triggers w) (row_pattern row)) as [first|] eqn:E;
        [| done].
      injection Hres as <-. apply fetchone_Some in E as [Hfirst _].
      rewrite Forall_forall in Hmade.
      destruct (Hmade first Hfirst) as (p' & r' & mt' & now' & id' & ->).
      simpl in Hresp. apply list_elem_of_singleton in Hresp.
      exists r'. simpl. unfold emission. by rewrite Hresp.
Qed.

End TextOnly.

(** X6. Whatever commands have been run, every response the cog has sent
    is a plain text message: the embed branch of [create_response] and its
    fall-through are never taken for triggers created by [add_trigger]. *)
Theorem responses_sent_are_text (py : Runtime) (cs : list command) :
  Forall (fun x => ∃ txt, sent_what x = RespStr txt)
         (sent (run_all py cs empty_world)).
Proof.
  apply (run_all_invariant py
           (fun w => wf_world w ∧ Forall command_made (triggers w)
                     ∧ Forall (fun x => ∃ txt, sent_what x = RespStr txt) (sent w))).
  - apply run_text_only.
  - split; [apply wf_empty_world |]. split; constructor.
Qed.

(** ** Adding, looking up, deleting *)

Lemma fetchone_snoc (rows : list Row) (row : Row) (p : string) :
  fetchone rows p = None → row_pattern row = p →
  fetchone (rows ++ [row]) p = Some row.
Proof.
  intros Hnone Hp. unfold fetchone in *.
  induction rows as [|x rows IH]; simpl in *.
  - by rewrite Hp, String.eqb_refl.
  - destruct (String.eqb (row_pattern x) p); [done | by apply IH].
Qed.

(** X7. Insert, then look up. On a well-formed world, [get_trigger] on a
    pattern that has just been added returns the first stored trigger with
    that pattern: the new one when the pattern was not stored before
    (with the given match type and response, case sensitive, unscoped),
    and otherwise the older one, which keeps shadowing the new row. *)
Theorem add_then_get (p response match_type : string) (now : Z) (w : World) :
  wf_world w →
  (get_trigger p (add_trigger p response match_type now w).2).1
  = Ok (Some (match fetchone (triggers w) p with
              | Some old => trigger_of_row old
              | None => trigger_of_row
                          (added_row p response match_type now
                             (next_rowid (triggers w)))
              end)).
Proof.
  intros Hwf.
  destruct (add_trigger_world p response match_type now w)
    as (w1 & Hrun & Ht & _ & Hc & _).
  rewrite Hrun. simpl.
  assert (wf_world w1) as Hwf1.
  { eapply wf_world_insert; [exact Ht | exact Hc | done | done | done]. }
  assert (resolve (triggers w1) p
          = Some (match fetchone (triggers w) p with
                  | Some old => trigger_of_row old
                  | None => trigger_of_row
                              (added_row p response match_type now
                                 (next_rowid (triggers w)))
                  end)) as Hres.
  { unfold resolve. rewrite Ht.
    destruct (fetchone (triggers w) p) as [old|] eqn:E.
    - by rewrite (fetchone_app _ _ _ _ E).
    - by rewrite (fetchone_snoc _ _ _ E). }
  destruct (get_trigger_resolved w1 p _ Hwf1 Hres) as (w2 & Hget & _).
  by rewrite Hget.
Qed.

Lemma add_then_get_witness :
  (get_trigger "hi" (add_trigger "hi" "C" "regex" 9 cached_world).2).1
  = Ok (Some (trigger_of_row (added_row "hi" "A" "exact" 1 1))).
Proof.
  rewrite (add_then_get "hi" "C" "regex" 9 cached_world).
  - reflexivity.
  - apply (reachable_wf py_ascii). by exists cached_commands.
Defined.

(** X8. Adding a trigger under a pattern no row carries and deleting that
    pattern again gives back the tables and the cache as they were. The
    id of the deleted trigger is free again: the next trigger added
    receives the very same id. *)
Theorem add_then_delete_restores (p response match_type : string) (now : Z)
    (p' response' match_type' : string) (now' : Z) (w : World) :
  wf_world w →
  (∀ r, r ∈ triggers w → row_pattern r ≠ p) →
  let added := (add_trigger p response match_type now w).2 in
  let w' := (delete_trigger p added).2 in
  last (row_id <$> triggers added) = Some (next_rowid (triggers w)) ∧
  triggers w' = triggers w ∧ cache w' = cache w ∧
  logs w' = logs w ∧ sent w' = sent w ∧
  triggers (add_trigger p' response' match_type' now' w').2
  = triggers w ++
    [added_row p' response' match_type' now' (next_rowid (triggers w))].
Proof.
  intros Hwf Hfresh added w'. subst added w'.
  destruct (add_trigger_world p response match_type now w)
    as (w1 & Hrun & Ht & Hl & Hc & Hs).
  rewrite Hrun. cbn [snd].
  destruct (delete_trigger_world p w1) as (w2 & Hrun2 & Ht2 & Hc2 & Hl2 & Hs2).
  rewrite Hrun2. cbn [snd].
  assert (triggers w2 = triggers w) as Hback.
  { rewrite Ht2, Ht, filter_app, (filter_all_ne _ _ Hfresh).
    rewrite filter_cons, decide_False by (simpl; tauto).
    by rewrite filter_nil, app_nil_r. }
  split_and!.
  - rewrite Ht, fmap_app. apply last_snoc.
  - done.
  - rewrite Hc2, Hc. apply delete_id. by apply wf_cache_absent.
  - by rewrite Hl2.
  - by rewrite Hs2.
  - destruct (add_trigger_world p' response' match_type' now' w2)
      as (w3 & Hrun3 & Ht3 & _).
    rewrite Hrun3. cbn [snd]. by rewrite Ht3, Hback.
Qed.

Lemma add_then_delete_restores_witness :
  triggers (delete_trigger "bye" (add_trigger "bye" "cu" "exact" 9 cached_world).2).2
  = triggers cached_world.
Proof.
  destruct (add_then_delete_restores "bye" "cu" "exact" 9 "x" "y" "exact" 10
              cached_world) as (_ & H & _).
  - apply (reachable_wf py_ascii). by exists cached_commands.
  - intros r Hr. apply (bool_decide_unpack _).
    revert r Hr. apply Forall_forall. apply (bool_decide_unpack _).
    vm_compute. exact I.
  - exact H.
Defined.

(** X9. Hits are cached, misses are not. A second [get_trigger] on the same
    pattern returns what the first returned; after a first call that found
    a trigger it executes no statement and changes nothing, and after a
    first call that found none it queries the table once more. *)
Theorem get_trigger_twice (p : string) (w : World) :
  let (r1, w1) := get_trigger p w in
  let (r2, w2) := get_trigger p w1 in
  r2 = r1 ∧
  match r1 with
  | Ok (Some _) => w2 = w1
  | _ => statements w2 = statements w1 ++ [SelectTriggerByPattern p]
         ∧ cache w2 = cache w1
  end.
Proof.
  unfold get_trigger, bind, gets. simpl.
  destruct (cache w !! p) as [t|] eqn:Hc; simpl.
  - by rewrite Hc.
  - destruct (fetchone (triggers w) p) as [row|] eqn:Hrow; simpl.
    + by rewrite lookup_insert_eq.
    + rewrite Hc. simpl. by rewrite Hrow.
Qed.

(** ** A row without responses *)

Lemma on_message_row_raises (py : Runtime) (o : Oracle) (m : Message)
    (i : nat) (row : Row) (t : Trigger) (w w1 : World) :
  get_trigger (row_pattern row) w = (Ok (Some t), w1) →
  matches py t (m_content m) = true → allowed t m = true →
  t_responses t = [] →
  on_message_row py o m i row w = (Raise IndexError, w1).
Proof.
  intros Hget Hm Ha Hresp. unfold on_message_row, bind at 1. rewrite Hget.
  unfold subscript, bind at 1, ret at 1.
  unfold bind at 1, lift at 1. rewrite match_trigger_total, Hm. simpl.
  rewrite pipeline_allowed, Ha. unfold bind, lift, random_choice.
  by rewrite Hresp.
Qed.

(** X10. A stored trigger with an empty response list is a trap. When the
    first row of the table has no response, is not yet cached, matches the
    message and passes the filters, the pass raises [IndexError] at that
    row: nothing is logged or sent, and the rows behind it are never
    looked at, whatever they are. *)
Theorem row_without_responses_aborts_pass (py : Runtime) (o : Oracle)
    (m : Message) (row : Row) (rest : list Row) (w : World) :
  m_author_bot m = false →
  triggers w = row :: rest →
  cache w !! row_pattern row = None →
  row_responses row = [] →
  matches py (trigger_of_row row) (m_content m) = true →
  allowed (trigger_of_row row) m = true →
  ∃ w', on_message py o m w = (Raise IndexError, w') ∧
        triggers w' = triggers w ∧ logs w' = logs w ∧ sent w' = sent w.
Proof.
  intros Hbot Hrows Hc Hresp Hm Ha. unfold on_message. rewrite Hbot.
  unfold bind at 1, select_all_triggers, bind at 1, execute, modify, gets.
  simpl.
  set (w0 := {| triggers := triggers w; logs := logs w; cache := cache w;
                statements := statements w ++ [SelectAllTriggers];
                sent := sent w |}).
  rewrite Hrows. cbn [on_message_loop]. unfold bind at 1.
  assert (∃ w1, get_trigger (row_pattern row) w0
                = (Ok (Some (trigger_of_row row)), w1) ∧
                triggers w1 = triggers w ∧ logs w1 = logs w ∧ sent w1 = sent w)
    as (w1 & Hget & Ht & Hl & Hs).
  { unfold get_trigger, bind, gets. simpl. rewrite Hc. simpl.
    unfold fetchone. rewrite Hrows. simpl. rewrite String.eqb_refl. simpl.
    eexists. split; [reflexivity | done]. }
  rewrite (on_message_row_raises py o m 0 row _ w0 w1 Hget Hm Ha Hresp).
  exists w1. rewrite <- Hrows. by split_and!.
Qed.

Lemma row_without_responses_aborts_pass_witness :
  ∃ w', on_message py_ascii sample_oracle (user_message "hello") silent_world
        = (Raise IndexError, w') ∧
        logs w' = [] ∧ sent w' = [].
Proof.
  destruct (row_without_responses_aborts_pass py_ascii sample_oracle
              (user_message "hello") (row_of_data silent_data 1 1)
              [added_row "hello" "hi!" "exact" 2 2] silent_world)
    as (w' & Hrun & _ & Hl & Hs); try reflexivity.
  exists w'. split; [exact Hrun |]. by rewrite Hl, Hs.
Defined.

(** ** Adding a trigger and the passes that follow *)

Section Extension.
Context (py : Runtime).




End Extension.




(** ** What a pass does to the cache *)



Section CacheOfAPass.
Context (py : Runtime).



End CacheOfAPass.



(** ** Match types *)

Lemma append_empty_r (s : string) : s +:+ "" = s.
Proof.
  induction s as [|a s IH]; [done |]. by rewrite append_String, IH.
Qed.

(** X13. Exact matching is stronger than partial matching: a text that an
    exact trigger matches is also matched by the partial trigger with the
    same pattern and the same case sensitivity. *)
Theorem exact_match_is_partial_match (py : Runtime) (t : Trigger)
    (text : string) :
  t_match_type t = "exact" →
  match_trigger py t text = Ok true →
  match_trigger py (with_match_type "partial" t) text = Ok true.
Proof.
  intros Hty. rewrite (match_trigger_exact py t text Hty).
  intros [= Heq]. apply String.eqb_eq in Heq.
  rewrite match_trigger_partial by done. simpl. rewrite Heq. f_equal.
  apply contains_spec. exists "", "". by rewrite append_empty, append_empty_r.
Qed.

Lemma exact_match_is_partial_match_witness :
  match_trigger py_ascii
    (with_match_type "partial" (sample_trigger "Hello" "exact" false)) "hELLO"
  = Ok true.
Proof.
  apply (exact_match_is_partial_match py_ascii
           (sample_trigger "Hello" "exact" false) "hELLO"); reflexivity.
Defined.

(** ** Listing *)

Lemma list_triggers_fields (w : World) :
  reply_fields (list_triggers w).1
  = (fun r => (row_pattern r, "Match type: " +:+ row_match_type r))
      <$> triggers w.
Proof.
  unfold list_triggers, bind, execute, modify, gets. simpl.
  by destruct (triggers w).
Qed.

(** X14. [list_triggers] shows the table as the other commands leave it. It
    answers "No triggers found." exactly when the table is empty and
    otherwise with one field per stored row, duplicates included; after
    [add_trigger] the listing is the former one followed by a field for
    the new pattern and its match type, and after [delete_trigger] it is
    the former one without the fields named by the deleted pattern.
    Listing itself changes neither tables nor cache. *)
Theorem listing_follows_commands (p response match_type : string) (now : Z)
    (w : World) :
  let listing w := reply_fields (list_triggers w).1 in
  ((list_triggers w).1 = Ok (ReplyText "No triggers found.") ↔ triggers w = []) ∧
  length (listing w) = length (triggers w) ∧
  listing (add_trigger p response match_type now w).2
  = listing w ++ [(p, "Match type: " +:+ match_type)] ∧
  listing (delete_trigger p w).2 = filter (fun f => f.1 ≠ p) (listing w) ∧
  triggers (list_triggers w).2 = triggers w ∧
  cache (list_triggers w).2 = cache w ∧
  logs (list_triggers w).2 = logs w ∧ sent (list_triggers w).2 = sent w.
Proof.
  intros listing. subst listing. cbv beta. rewrite !list_triggers_fields.
  split_and!.
  - unfold list_triggers, bind, execute, modify, gets. simpl.
    destruct (triggers w); simpl; split; done.
  - by rewrite length_fmap.
  - destruct (add_trigger_world p response match_type now w)
      as (w1 & Hrun & Ht & _).
    rewrite Hrun. cbn [snd]. by rewrite Ht, fmap_app.
  - destruct (delete_trigger_world p w) as (w1 & Hrun & Ht & _).
    rewrite Hrun. cbn [snd]. rewrite Ht. clear Hrun Ht.
    induction (triggers w) as [|x rows IH]; [done |].
    rewrite fmap_cons, !filter_cons. simpl.
    destruct (decide (row_pattern x ≠ p)); by rewrite ?fmap_cons, IH.
  - unfold list_triggers, bind, execute, modify, gets. simpl.
    by destruct (truthy (triggers w)).
  - unfold list_triggers, bind, execute, modify, gets. simpl.
    by destruct (truthy (triggers w)).
  - unfold list_triggers, bind, execute, modify, gets. simpl.
    by destruct (truthy (triggers w)).
  - unfold list_triggers, bind, execute, modify, gets. simpl.
    by destruct (truthy (triggers w)).
Qed.

(** ** Deleting one pattern and the passes that follow *)

Section Removal.
Context (py : Runtime).




End Removal.





(** X17. A match type other than "exact", "partial" and "regex" is stored
    and listed like any other but never fires: whatever the pattern, the
    text, the filters and the responses of the trigger a row resolves to,
    the loop body leaves ledger and channel untouched and goes on to the
    next row. *)
Theorem unknown_match_type_never_fires (py : Runtime) (o : Oracle)
    (m : Message) (i : nat) (row : Row) (t : Trigger) (w w1 : World) :
  get_trigger (row_pattern row) w = (Ok (Some t), w1) →
  t_match_type t ≠ "exact" → t_match_type t ≠ "partial" →
  t_match_type t ≠ "regex" →
  match_trigger py t (m_content m) = Ok false ∧
  on_message_row py o m i row w = (Ok tt, w1).
Proof.
  intros Hget H1%String.eqb_neq H2%String.eqb_neq H3%String.eqb_neq.
  assert (match_trigger py t (m_content m) = Ok false) as Hm.
  { unfold match_trigger. by rewrite H1, H2, H3. }
  split; [done |].
  unfold on_message_row, bind at 1. rewrite Hget.
  unfold subscript, bind at 1, ret at 1.
  unfold bind at 1, lift at 1. by rewrite Hm.
Qed.

Lemma unknown_match_type_never_fires_witness :
  let w := (add_trigger "hello" "hi!" "fuzzy" 1 empty_world).2 in
  let row := added_row "hello" "hi!" "fuzzy" 1 1 in
  match_trigger py_ascii (trigger_of_row row) "hello" = Ok false ∧
  on_message_row py_ascii sample_oracle (user_message "hello") 0 row w
  = (Ok tt, (get_trigger "hello" w).2).
Proof.
  apply (unknown_match_type_never_fires py_ascii sample_oracle
           (user_message "hello") 0 (added_row "hello" "hi!" "fuzzy" 1 1)
           (trigger_of_row (added_row "hello" "hi!" "fuzzy" 1 1))
           (add_trigger "hello" "hi!" "fuzzy" 1 empty_world).2);
    [reflexivity | done | done | done].
Defined.

(** ** The ledger over time *)

(** X18. The ledger and the channel history are append-only. No command
    removes or rewrites a usage record or a sent message: whatever
    commands are run from whatever world, what was logged and sent before
    is a prefix of what is logged and sent afterwards. Deleting a trigger
    in particular keeps the records that name it. *)
Theorem ledger_is_append_only (py : Runtime) (cs : list command) (w : World) :
  logs w `prefix_of` logs (run_all py cs w) ∧
  sent w `prefix_of` sent (run_all py cs w).
Proof.
  revert w. induction cs as [|c cs IH]; intros w; [done |].
  cbn [run_all].
  assert (logs w `prefix_of` logs (run py c w).2
          ∧ sent w `prefix_of` sent (run py c w).2) as [Hl Hs].
  { destruct c as [pattern response match_type now | pattern | | o m]; cbn [run].
    - destruct (add_trigger_world pattern response match_type now w)
        as (w' & Hrun & _ & Hl & _ & Hs).
      unfold bind. rewrite Hrun. simpl. by rewrite Hl, Hs.
    - destruct (delete_trigger_world pattern w) as (w' & Hrun & _ & _ & Hl & Hs).
      unfold bind. rewrite Hrun. simpl. by rewrite Hl, Hs.
    - unfold bind, list_triggers, bind, execute, modify, gets. simpl.
      by destruct (truthy (triggers w)).
    - destruct (on_message_frame py o m w)
        as (out & w' & ls & ss & Hrun & _ & Hl & Hs & _).
      rewrite Hrun. simpl. rewrite Hl, Hs.
      split; by apply prefix_app_r. }
  destruct (IH (run py c w).2) as [Hl' Hs'].
  split; by etrans.
Qed.
